(** * Webhook ingress of the VPS deploy system

    A shallow embedding of [webhook/main.go]: the signature check
    ([verifySignature]), the slot creation ([runDeploy]) and the request
    handler ([githubWebhookHandler]), together with executable models of
    the Go library functions they call (crypto/sha256, crypto/hmac,
    crypto/subtle, encoding/hex, path/filepath, os.MkdirAll and the
    compiled [repoNamePattern]).  The handler is parametric in the secret
    loaded by [init] and in the behaviour of [json.Unmarshal]; a goroutine
    started with [go] is a separate step of the server. *)

From Stdlib Require Import ZArith List String Ascii Strings.Byte Lia Bool.
From stdpp Require Import gmap strings list.

Import ListNotations.
Local Open Scope Z_scope.

Set Warnings "-register-all".

(** ** Go values

    A Go [string] is an immutable byte sequence: Rocq's [string].
    A Go [[]byte] is [list byte].  A Go [error] that may be [nil] is an
    [option] of its message. *)

Abbreviation bytes := (list byte).
Abbreviation error := (option string).

Definition bytes_of_string (s : string) : bytes := list_byte_of_string s.
Definition string_of_bytes (b : bytes) : string := string_of_list_byte b.

Global Instance byte_eq_dec : EqDecision byte := Byte.byte_eq_dec.

Definition byte_val (b : byte) : Z := Z.of_N (Byte.to_N b).

Definition byte_of_Z (z : Z) : byte :=
  match Byte.of_N (Z.to_N (z mod 256)) with
  | Some b => b
  | None => x00
  end.

(** ** crypto/sha256 *)

Module sha256.

Definition Size : nat := 32.
Definition BlockSize : nat := 64.

(** Arithmetic on [uint32] wraps around. *)
Definition uint32 (x : Z) : Z := x mod 2 ^ 32.

Definition add32 (x y : Z) : Z := uint32 (x + y).

(** [bits.RotateLeft32(x, -k)]: rotation to the right by [k] bits. *)
Definition rotr (x k : Z) : Z :=
  Z.lor (Z.shiftr x k) (uint32 (Z.shiftl x (32 - k))).

(** [^x] on a [uint32]. *)
Definition not32 (x : Z) : Z := Z.lxor x 0xffffffff.

(** A 32-bit constant, written as its two 16-bit halves. *)
Definition w32 (hi lo : Z) : Z := Z.lor (Z.shiftl hi 16) lo.

Definition init : list Z :=
  [ w32 0x6a09 0xe667; w32 0xbb67 0xae85; w32 0x3c6e 0xf372; w32 0xa54f 0xf53a;
    w32 0x510e 0x527f; w32 0x9b05 0x688c; w32 0x1f83 0xd9ab; w32 0x5be0 0xcd19 ].

Definition _K : list Z :=
  [ w32 0x428a 0x2f98; w32 0x7137 0x4491; w32 0xb5c0 0xfbcf; w32 0xe9b5 0xdba5;
    w32 0x3956 0xc25b; w32 0x59f1 0x11f1; w32 0x923f 0x82a4; w32 0xab1c 0x5ed5;
    w32 0xd807 0xaa98; w32 0x1283 0x5b01; w32 0x2431 0x85be; w32 0x550c 0x7dc3;
    w32 0x72be 0x5d74; w32 0x80de 0xb1fe; w32 0x9bdc 0x06a7; w32 0xc19b 0xf174;
    w32 0xe49b 0x69c1; w32 0xefbe 0x4786; w32 0x0fc1 0x9dc6; w32 0x240c 0xa1cc;
    w32 0x2de9 0x2c6f; w32 0x4a74 0x84aa; w32 0x5cb0 0xa9dc; w32 0x76f9 0x88da;
    w32 0x983e 0x5152; w32 0xa831 0xc66d; w32 0xb003 0x27c8; w32 0xbf59 0x7fc7;
    w32 0xc6e0 0x0bf3; w32 0xd5a7 0x9147; w32 0x06ca 0x6351; w32 0x1429 0x2967;
    w32 0x27b7 0x0a85; w32 0x2e1b 0x2138; w32 0x4d2c 0x6dfc; w32 0x5338 0x0d13;
    w32 0x650a 0x7354; w32 0x766a 0x0abb; w32 0x81c2 0xc92e; w32 0x9272 0x2c85;
    w32 0xa2bf 0xe8a1; w32 0xa81a 0x664b; w32 0xc24b 0x8b70; w32 0xc76c 0x51a3;
    w32 0xd192 0xe819; w32 0xd699 0x0624; w32 0xf40e 0x3585; w32 0x106a 0xa070;
    w32 0x19a4 0xc116; w32 0x1e37 0x6c08; w32 0x2748 0x774c; w32 0x34b0 0xbcb5;
    w32 0x391c 0x0cb3; w32 0x4ed8 0xaa4a; w32 0x5b9c 0xca4f; w32 0x682e 0x6ff3;
    w32 0x748f 0x82ee; w32 0x78a5 0x636f; w32 0x84c8 0x7814; w32 0x8cc7 0x0208;
    w32 0x90be 0xfffa; w32 0xa450 0x6ceb; w32 0xbef9 0xa3f7; w32 0xc671 0x78f2 ].

(** [w[i] = p[j]<<24 | p[j+1]<<16 | p[j+2]<<8 | p[j+3]] for the first
    sixteen words of a chunk. *)
Fixpoint be_words (p : list Z) : list Z :=
  match p with
  | b0 :: b1 :: b2 :: b3 :: rest =>
      Z.lor (Z.lor (Z.lor (Z.shiftl b0 24) (Z.shiftl b1 16)) (Z.shiftl b2 8)) b3
      :: be_words rest
  | _ => []
  end.

(** The schedule is kept newest word first, so that [w[i-k]] is the
    element at index [k-1]. *)
Definition wnth (k : nat) (rw : list Z) : Z := nth k rw 0.

Definition schedule_step (rw : list Z) : list Z :=
  let v1 := wnth 1 rw in
  let t1 := Z.lxor (Z.lxor (rotr v1 17) (rotr v1 19)) (Z.shiftr v1 10) in
  let v2 := wnth 14 rw in
  let t2 := Z.lxor (Z.lxor (rotr v2 7) (rotr v2 18)) (Z.shiftr v2 3) in
  add32 (add32 (add32 t1 (wnth 6 rw)) t2) (wnth 15 rw) :: rw.

Definition schedule (chunk : list Z) : list Z :=
  rev (Nat.iter 48 schedule_step (rev (be_words chunk))).

Record regs := Regs { ra : Z; rb : Z; rc : Z; rd : Z; re : Z; rf : Z; rg : Z; rh : Z }.

Definition round (r : regs) (kw : Z * Z) : regs :=
  let '(Regs a b c d e f g h) := r in
  let t1 :=
    add32 (add32 (add32 (add32 h
      (Z.lxor (Z.lxor (rotr e 6) (rotr e 11)) (rotr e 25)))
      (Z.lxor (Z.land e f) (Z.land (not32 e) g)))
      (fst kw)) (snd kw) in
  let t2 :=
    add32 (Z.lxor (Z.lxor (rotr a 2) (rotr a 13)) (rotr a 22))
          (Z.lxor (Z.lxor (Z.land a b) (Z.land a c)) (Z.land b c)) in
  Regs (add32 t1 t2) a b c (add32 d t1) e f g.

Definition regs_of (h : list Z) : regs :=
  Regs (wnth 0 h) (wnth 1 h) (wnth 2 h) (wnth 3 h)
       (wnth 4 h) (wnth 5 h) (wnth 6 h) (wnth 7 h).

(** One iteration of the outer loop of [blockGeneric]. *)
Definition block (h : list Z) (chunk : list Z) : list Z :=
  let '(Regs a b c d e f g h') :=
    fold_left round (combine _K (schedule chunk)) (regs_of h) in
  [ add32 (wnth 0 h) a; add32 (wnth 1 h) b; add32 (wnth 2 h) c;
    add32 (wnth 3 h) d; add32 (wnth 4 h) e; add32 (wnth 5 h) f;
    add32 (wnth 6 h) g; add32 (wnth 7 h) h' ].

(** [for len(p) >= chunk { ...; p = p[chunk:] }]; the fuel is the number
    of chunks. *)
Fixpoint blocks (fuel : nat) (h : list Z) (p : list Z) : list Z :=
  match fuel with
  | O => h
  | S fuel' => blocks fuel' (block h (firstn 64 p)) (skipn 64 p)
  end.

(** Big-endian encoding of [x] on [n] bytes. *)
Fixpoint be_bytes (n : nat) (x : Z) : list Z :=
  match n with
  | O => []
  | S n' => (Z.shiftr x (8 * Z.of_nat n')) mod 256 :: be_bytes n' x
  end.

(** Padding of [checkSum]: a [0x80] byte, zeros up to 56 modulo 64, then
    the length in bits on eight bytes. *)
Definition padding (len : nat) : list Z :=
  let r := (len mod 64)%nat in
  let zeros := if (r <? 56)%nat then (55 - r)%nat else (119 - r)%nat in
  0x80 :: repeat 0 zeros ++ be_bytes 8 (8 * Z.of_nat len).

Definition Sum256 (data : bytes) : bytes :=
  let p := map byte_val data ++ padding (length data) in
  let h := blocks (length p / 64) init p in
  map byte_of_Z (flat_map (be_bytes 4) h).

End sha256.

(** ** crypto/subtle

    The comparison is modelled with the observations it leaks to a timing
    adversary: the outcome of every branch and every slice index. *)

Module subtle.

Inductive leak : Type :=
| Branch (taken : bool)
| Index (i : nat).

(** [return int((uint32(x^y) - 1) >> 31)]. *)
Definition ConstantTimeByteEq (x y : Z) : Z :=
  Z.shiftr (sha256.uint32 (Z.lxor x y - 1)) 31.

(** [for i := 0; i < len(x); i++ { v |= x[i] ^ y[i] }], entered with
    slices of equal length. *)
Fixpoint compare_loop (i : nat) (x y : bytes) (v : Z) : Z * list leak :=
  match x, y with
  | a :: x', b :: y' =>
      let '(v', t) :=
        compare_loop (S i) x' y' (Z.lor v (Z.lxor (byte_val a) (byte_val b))) in
      (v', Branch true :: Index i :: Index i :: t)
  | _, _ => (v, [Branch false])
  end.

Definition ConstantTimeCompare_leaky (x y : bytes) : Z * list leak :=
  if negb (length x =? length y)%nat
  then (0, [Branch true])
  else
    let '(v, t) := compare_loop 0 x y 0 in
    (ConstantTimeByteEq v 0, Branch false :: t).

Definition ConstantTimeCompare (x y : bytes) : Z :=
  fst (ConstantTimeCompare_leaky x y).

Definition leakage (x y : bytes) : list leak :=
  snd (ConstantTimeCompare_leaky x y).

(** What [n] turns of the loop leak, from index [i] on. *)
Fixpoint loop_leak (i n : nat) : list leak :=
  match n with
  | O => [Branch false]
  | S n' => Branch true :: Index i :: Index i :: loop_leak (S i) n'
  end.

End subtle.

(** ** crypto/hmac *)

Module hmac.

Definition xor_byte (c : Z) (b : byte) : byte :=
  byte_of_Z (Z.lxor (byte_val b) c).

(** [hmac.New(sha256.New, key)]: a key longer than the block size is
    hashed first, then it is padded with zeros to the block size. *)
Definition pad_key (key : bytes) : bytes :=
  let k := if (sha256.BlockSize <? length key)%nat
           then sha256.Sum256 key else key in
  k ++ repeat x00 (sha256.BlockSize - length k).

(** [mac.Write(body); mac.Sum(nil)]. *)
Definition Sum (key body : bytes) : bytes :=
  let k := pad_key key in
  let inner := sha256.Sum256 (map (xor_byte 0x36) k ++ body) in
  sha256.Sum256 (map (xor_byte 0x5c) k ++ inner).

(** [return subtle.ConstantTimeCompare(mac1, mac2) == 1]. *)
Definition Equal (mac1 mac2 : bytes) : bool :=
  subtle.ConstantTimeCompare mac1 mac2 =? 1.

End hmac.

(** ** encoding/hex *)

Module hex.

Definition hextable : string := "0123456789abcdef".

Definition digit (n : Z) : ascii :=
  match String.get (Z.to_nat n) hextable with
  | Some c => c
  | None => "0"%char
  end.

(** [dst[j] = hextable[v>>4]; dst[j+1] = hextable[v&0x0f]]. *)
Fixpoint EncodeToString (src : bytes) : string :=
  match src with
  | [] => EmptyString
  | v :: rest =>
      String (digit (Z.shiftr (byte_val v) 4))
        (String (digit (Z.land (byte_val v) 0x0f)) (EncodeToString rest))
  end.

(** [fromHexChar]: digits and letters of either case. *)
Definition fromHexChar (c : ascii) : option Z :=
  let n := Z.of_nat (nat_of_ascii c) in
  if (48 <=? n) && (n <=? 57) then Some (n - 48)
  else if (97 <=? n) && (n <=? 102) then Some (n - 97 + 10)
  else if (65 <=? n) && (n <=? 70) then Some (n - 65 + 10)
  else None.

Fixpoint DecodeString (s : string) : option bytes :=
  match s with
  | EmptyString => Some []
  | String _ EmptyString => None
  | String a (String b rest) =>
      match fromHexChar a, fromHexChar b, DecodeString rest with
      | Some x, Some y, Some bs =>
          Some (byte_of_Z (Z.lor (Z.shiftl x 4) y) :: bs)
      | _, _, _ => None
      end
  end.

Definition is_lower_hex (c : ascii) : bool :=
  let n := Z.of_nat (nat_of_ascii c) in
  (48 <=? n) && (n <=? 57) || (97 <=? n) && (n <=? 102).

End hex.


(** ** Slicing of Go strings *)

(** [s[:n]] and [s[n:]] for [n <= len(s)]. *)
Definition slice_to (n : nat) (s : string) : string := String.substring 0 n s.
Definition slice_from (n : nat) (s : string) : string :=
  String.substring n (String.length s - n) s.

(** ** strings *)

Module strings.

Definition in_cutset (cutset : string) (c : ascii) : bool :=
  existsb (Ascii.eqb c) (list_ascii_of_string cutset).

Fixpoint TrimLeft (s cutset : string) : string :=
  match s with
  | EmptyString => EmptyString
  | String c rest => if in_cutset cutset c then TrimLeft rest cutset else s
  end.

(** Trailing characters of the cut set are dropped from the right. *)
Fixpoint TrimRight (s cutset : string) : string :=
  match s with
  | EmptyString => EmptyString
  | String c rest =>
      match TrimRight rest cutset with
      | EmptyString => if in_cutset cutset c then EmptyString
                       else String c EmptyString
      | r => String c r
      end
  end.

Definition Trim (s cutset : string) : string :=
  TrimRight (TrimLeft s cutset) cutset.

Definition lower (c : ascii) : ascii :=
  let n := nat_of_ascii c in
  if (65 <=? n)%nat && (n <=? 90)%nat then ascii_of_nat (n + 32) else c.

Definition upper (c : ascii) : ascii :=
  let n := nat_of_ascii c in
  if (97 <=? n)%nat && (n <=? 122)%nat then ascii_of_nat (n - 32) else c.

Fixpoint ToUpper (s : string) : string :=
  match s with
  | EmptyString => EmptyString
  | String c rest => String (upper c) (ToUpper rest)
  end.

End strings.

(** ** regexp: the compiled [repoNamePattern]

    [^[a-zA-Z0-9_-]+$]: the whole text is one or more characters of the
    class.  Without the [m] flag [$] matches only at the end of the text,
    and a byte outside ASCII is never in the class. *)

Module regexp.

Definition in_range (lo hi c : ascii) : bool :=
  (nat_of_ascii lo <=? nat_of_ascii c)%nat
  && (nat_of_ascii c <=? nat_of_ascii hi)%nat.

(** [[a-zA-Z0-9_-]] *)
Definition class (c : ascii) : bool :=
  in_range "a" "z" c || in_range "A" "Z" c || in_range "0" "9" c
  || Ascii.eqb c "_" || Ascii.eqb c "-".

Fixpoint all_in_class (s : string) : bool :=
  match s with
  | EmptyString => true
  | String c rest => class c && all_in_class rest
  end.

(** [repoNamePattern.MatchString] *)
Definition MatchString (s : string) : bool :=
  match s with
  | EmptyString => false
  | String c rest => class c && all_in_class rest
  end.

End regexp.

(** ** path/filepath (Unix) *)

Module filepath.

Definition Separator : ascii := "/".

(** The elements of a path: the pieces between separators, empty ones
    included. *)
Fixpoint elements (path : string) : list string :=
  match path with
  | EmptyString => [EmptyString]
  | String c rest =>
      if Ascii.eqb c Separator then EmptyString :: elements rest
      else
        match elements rest with
        | e :: es => String c e :: es
        | [] => [String c EmptyString]
        end
  end.

(** One turn of the loop of [Clean] on the element [e]; [out] holds the
    elements written so far, last one first.  Backtracking over [..] is
    possible when an element other than a kept [..] has been written
    ([out.w > dotdot]). *)
Definition clean_step (rooted : bool) (out : list string) (e : string)
  : list string :=
  if String.eqb e EmptyString then out
  else if String.eqb e "." then out
  else if String.eqb e ".." then
    match out with
    | top :: out' =>
        if String.eqb top ".." then (if rooted then out else e :: out)
        else out'
    | [] => if rooted then out else [e]
    end
  else e :: out.

Definition Clean (path : string) : string :=
  match path with
  | EmptyString => "."
  | String c _ =>
      let rooted := Ascii.eqb c Separator in
      let out := fold_left (clean_step rooted) (elements path) [] in
      let joined := String.concat "/" (rev out) in
      if rooted then "/" +:+ joined
      else if String.eqb joined EmptyString then "." else joined
  end.

(** [Join]: the first non-empty element on, joined with separators and
    cleaned. *)
Fixpoint Join (elem : list string) : string :=
  match elem with
  | [] => EmptyString
  | e :: rest =>
      if String.eqb e EmptyString then Join rest
      else Clean (String.concat "/" elem)
  end.

End filepath.

(** ** The file system and [os.MkdirAll]

    A disk maps the element list of an absolute path to the kind of node
    found there; the root directory always exists.  [writable] is false
    while the storage refuses writes. *)

Inductive node : Type := Dir | File.

Global Instance node_eq_dec : EqDecision node.
Proof. solve_decision. Defined.

Record disk : Type := Disk {
  nodes : gmap (list string) node;
  writable : bool
}.

Module os.

(** The elements the kernel walks for a clean absolute path. *)
Definition walk (path : string) : list string :=
  filter (fun e => e <> EmptyString) (filepath.elements path).

Definition Stat (d : disk) (p : list string) : option node :=
  match p with
  | [] => Some Dir
  | _ => nodes d !! p
  end.

(** The longest name a directory entry can have, in bytes. *)
Definition NAME_MAX : nat := 255.

Definition has_nul (e : string) : bool :=
  existsb (Ascii.eqb Ascii.zero) (list_ascii_of_string e).

Definition too_long (e : string) : bool := (NAME_MAX <? String.length e)%nat.

(** mkdir(2) on an element list.  The error is the errno of the
    [*PathError] that [os.Mkdir] returns.  A path that holds a NUL byte is
    refused before the system call, a name longer than [NAME_MAX] when the
    kernel looks it up; then come the entry that exists, the parent that is
    missing or not a directory, and the storage that refuses writes. *)
Definition Mkdir (d : disk) (p : list string) : disk * error :=
  if existsb has_nul p then (d, Some "invalid argument")
  else if existsb too_long p then (d, Some "file name too long")
  else
    match Stat d p with
    | Some _ => (d, Some "file exists")
    | None =>
        match Stat d (removelast p) with
        | None => (d, Some "no such file or directory")
        | Some File => (d, Some "not a directory")
        | Some Dir =>
            if writable d
            then (Disk (<[p := Dir]> (nodes d)) (writable d), None)
            else (d, Some "read-only file system")
        end
    end.

(** [MkdirAll] on the elements of the path, last one first: stop when
    the path is there, otherwise make the parent, then the directory
    itself, and accept a failure of [Mkdir] when the directory is there
    after all. *)
Fixpoint MkdirAll_rev (d : disk) (rp : list string) : disk * error :=
  match Stat d (rev rp) with
  | Some Dir => (d, None)
  | Some File => (d, Some "not a directory")
  | None =>
      match rp with
      | [] => (d, None)
      | _ :: rparent =>
          match MkdirAll_rev d rparent with
          | (d1, Some e) => (d1, Some e)
          | (d1, None) =>
              match Mkdir d1 (rev rp) with
              | (d2, None) => (d2, None)
              | (d2, Some e) =>
                  match Stat d2 (rev rp) with
                  | Some Dir => (d2, None)
                  | _ => (d2, Some e)
                  end
              end
          end
      end
  end.

Definition MkdirAll (d : disk) (path : string) : disk * error :=
  MkdirAll_rev d (rev (walk path)).

End os.

(** ** The trigger payload *)

Record RepositoryT : Type := { Name : string }.

Record GitHubWebhookPayload : Type := {
  Ref : string;
  Repository : RepositoryT
}.

Definition zero_payload : GitHubWebhookPayload :=
  {| Ref := EmptyString; Repository := {| Name := EmptyString |} |}.

(** ** A JSON decoder for the payload

    The handler is parametric in the behaviour of [json.Unmarshal] (see
    the section below).  This module gives an executable decoder on which
    the handler can be run: it reads one JSON document (objects, arrays,
    strings with the single-character escapes, numbers, literals) and fills
    the payload the way encoding/json fills a struct: keys are matched
    without regard to ASCII case, unknown keys are skipped, [null] leaves a
    field as it is, the last duplicate wins, and a value of the wrong kind
    is an error.  Escapes written [\uXXXX] are outside its scope and make it
    reject the document. *)

Module json.

Inductive value : Type :=
| Null
| Boolean (b : bool)
| Number (literal : string)
| Text (s : string)
| Array (elems : list value)
| Object (members : list (string * value)).

Definition is_space (c : ascii) : bool :=
  let n := nat_of_ascii c in
  (n =? 32)%nat || (n =? 9)%nat || (n =? 10)%nat || (n =? 13)%nat.

Definition is_digit (c : ascii) : bool :=
  (48 <=? nat_of_ascii c)%nat && (nat_of_ascii c <=? 57)%nat.

Fixpoint skip_space (s : string) : string :=
  match s with
  | String c rest => if is_space c then skip_space rest else s
  | EmptyString => s
  end.

Definition quote : ascii := "034"%char.
Definition backslash : ascii := "092"%char.

Definition unescape (c : ascii) : option ascii :=
  if Ascii.eqb c quote then Some c
  else if Ascii.eqb c backslash then Some c
  else if Ascii.eqb c "/" then Some c
  else if Ascii.eqb c "b" then Some (ascii_of_nat 8)
  else if Ascii.eqb c "f" then Some (ascii_of_nat 12)
  else if Ascii.eqb c "n" then Some (ascii_of_nat 10)
  else if Ascii.eqb c "r" then Some (ascii_of_nat 13)
  else if Ascii.eqb c "t" then Some (ascii_of_nat 9)
  else None.

(** The text after an opening quote, up to the closing one. *)
Fixpoint parse_string (s : string) : option (string * string) :=
  match s with
  | EmptyString => None
  | String c rest =>
      if Ascii.eqb c quote then Some (EmptyString, rest)
      else if Ascii.eqb c backslash then
        match rest with
        | String e rest' =>
            match unescape e, parse_string rest' with
            | Some c', Some (t, r) => Some (String c' t, r)
            | _, _ => None
            end
        | EmptyString => None
        end
      else if (nat_of_ascii c <? 32)%nat then None
      else
        match parse_string rest with
        | Some (t, r) => Some (String c t, r)
        | None => None
        end
  end.

Fixpoint take_digits (s : string) : string * string :=
  match s with
  | String c rest =>
      if is_digit c
      then let '(ds, r) := take_digits rest in (String c ds, r)
      else (EmptyString, s)
  | EmptyString => (EmptyString, s)
  end.

Definition expect (c : ascii) (s : string) : option string :=
  match s with
  | String c' rest => if Ascii.eqb c c' then Some rest else None
  | EmptyString => None
  end.

Definition tail (s : string) : string :=
  match s with
  | String _ rest => rest
  | EmptyString => EmptyString
  end.

Definition starts_with (c : ascii) (s : string) : bool :=
  match s with
  | String c' _ => Ascii.eqb c c'
  | EmptyString => false
  end.

(** An optional minus sign, an integer part without a leading zero, an
    optional fraction and an optional exponent. *)
Definition parse_number (s : string) : option (string * string) :=
  let s1 := if starts_with "-" s then tail s else s in
  let '(int, s2) := take_digits s1 in
  if String.eqb int EmptyString then None
  else if starts_with "0" int && negb (String.eqb int "0") then None
  else
    let frac :=
      if starts_with "." s2 then
        let '(ds, r) := take_digits (tail s2) in
        if String.eqb ds EmptyString then None else Some r
      else Some s2 in
    match frac with
    | None => None
    | Some s3 =>
        let rest :=
          if starts_with "e" s3 || starts_with "E" s3 then
            let s4 := tail s3 in
            let s5 := if starts_with "+" s4 || starts_with "-" s4
                      then tail s4 else s4 in
            let '(ds, r) := take_digits s5 in
            if String.eqb ds EmptyString then None else Some r
          else Some s3 in
        match rest with
        | None => None
        | Some r =>
            Some (String.substring 0 (String.length s - String.length r)%nat s, r)
        end
    end.

Definition literal (word : string) (v : value) (s : string)
  : option (value * string) :=
  if String.prefix word s
  then Some (v, String.substring (String.length word)
                  (String.length s - String.length word)%nat s)
  else None.

(** Recursive descent; every call consumes a character, so the length of
    the input bounds the depth. *)
Fixpoint parse_value (fuel : nat) (s : string) : option (value * string) :=
  match fuel with
  | O => None
  | S fuel' =>
      match s with
      | EmptyString => None
      | String c rest =>
          if Ascii.eqb c "{" then
            let r := skip_space rest in
            if starts_with "}" r
            then option_map (fun r' => (Object [], r')) (expect "}" r)
            else option_map (fun '(ms, r') => (Object ms, r'))
                            (parse_members fuel' r)
          else if Ascii.eqb c "[" then
            let r := skip_space rest in
            if starts_with "]" r
            then option_map (fun r' => (Array [], r')) (expect "]" r)
            else option_map (fun '(vs, r') => (Array vs, r'))
                            (parse_elements fuel' r)
          else if Ascii.eqb c quote then
            option_map (fun '(t, r) => (Text t, r)) (parse_string rest)
          else if Ascii.eqb c "t" then literal "true" (Boolean true) s
          else if Ascii.eqb c "f" then literal "false" (Boolean false) s
          else if Ascii.eqb c "n" then literal "null" Null s
          else option_map (fun '(n, r) => (Number n, r)) (parse_number s)
      end
  end
with parse_members (fuel : nat) (s : string)
  : option (list (string * value) * string) :=
  match fuel with
  | O => None
  | S fuel' =>
      match expect quote s with
      | None => None
      | Some s1 =>
          match parse_string s1 with
          | None => None
          | Some (key, s2) =>
              match expect ":" (skip_space s2) with
              | None => None
              | Some s3 =>
                  match parse_value fuel' (skip_space s3) with
                  | None => None
                  | Some (v, s4) =>
                      let s5 := skip_space s4 in
                      if starts_with "," s5 then
                        match expect "," s5 with
                        | None => None
                        | Some s6 =>
                            option_map
                              (fun '(ms, r) => ((key, v) :: ms, r))
                              (parse_members fuel' (skip_space s6))
                        end
                      else
                        option_map (fun r => ([(key, v)], r)) (expect "}" s5)
                  end
              end
          end
      end
  end
with parse_elements (fuel : nat) (s : string)
  : option (list value * string) :=
  match fuel with
  | O => None
  | S fuel' =>
      match parse_value fuel' s with
      | None => None
      | Some (v, s1) =>
          let s2 := skip_space s1 in
          if starts_with "," s2 then
            match expect "," s2 with
            | None => None
            | Some s3 =>
                option_map (fun '(vs, r) => (v :: vs, r))
                           (parse_elements fuel' (skip_space s3))
            end
          else option_map (fun r => ([v], r)) (expect "]" s2)
      end
  end.

(** One document, with white space allowed around it and nothing else. *)
Definition parse (s : string) : option value :=
  match parse_value (S (String.length s)) (skip_space s) with
  | Some (v, r) => if String.eqb (skip_space r) EmptyString then Some v else None
  | None => None
  end.

Fixpoint fold_key (s : string) : string :=
  match s with
  | EmptyString => EmptyString
  | String c rest => String (strings.lower c) (fold_key rest)
  end.

(** Filling a [string] field. *)
Definition into_string (v : value) (cur : string) : option string :=
  match v with
  | Text s => Some s
  | Null => Some cur
  | _ => None
  end.

Fixpoint into_repository (ms : list (string * value)) (cur : RepositoryT)
  : option RepositoryT :=
  match ms with
  | [] => Some cur
  | (k, v) :: rest =>
      if String.eqb (fold_key k) "name" then
        match into_string v (Name cur) with
        | Some s => into_repository rest {| Name := s |}
        | None => None
        end
      else into_repository rest cur
  end.

Fixpoint into_payload (ms : list (string * value)) (cur : GitHubWebhookPayload)
  : option GitHubWebhookPayload :=
  match ms with
  | [] => Some cur
  | (k, v) :: rest =>
      if String.eqb (fold_key k) "ref" then
        match into_string v (Ref cur) with
        | Some s => into_payload rest {| Ref := s; Repository := Repository cur |}
        | None => None
        end
      else if String.eqb (fold_key k) "repository" then
        match v with
        | Null => into_payload rest cur
        | Object rs =>
            match into_repository rs (Repository cur) with
            | Some r => into_payload rest {| Ref := Ref cur; Repository := r |}
            | None => None
            end
        | _ => None
        end
      else into_payload rest cur
  end.

(** [json.Unmarshal(body, &payload)] on a zero payload. *)
Definition Unmarshal (body : bytes) : GitHubWebhookPayload * error :=
  match parse (string_of_bytes body) with
  | None => (zero_payload, Some "invalid character")
  | Some Null => (zero_payload, None)
  | Some (Object ms) =>
      match into_payload ms zero_payload with
      | Some p => (p, None)
      | None => (zero_payload, Some "cannot unmarshal")
      end
  | Some _ => (zero_payload, Some "cannot unmarshal")
  end.

End json.

(** ** net/http and gin *)

Module http.
Definition StatusOK : Z := 200.
Definition StatusBadRequest : Z := 400.
Definition StatusUnauthorized : Z := 401.
End http.

Module gin.

(** The values stored in a [gin.H] by this program. *)
Inductive any : Type :=
| Bool (b : bool)
| Str (s : string).

Global Instance any_eq_dec : EqDecision any.
Proof. solve_decision. Defined.

(** A request as the handler sees it: what [io.ReadAll] returns for the
    body, and the headers under their canonical names. *)
Record Context : Type := {
  Body : bytes;
  BodyErr : error;
  Header : gmap string string
}.

Definition ReadAll (c : Context) : bytes * error := (Body c, BodyErr c).

(** [textproto.CanonicalMIMEHeaderKey] on a key made of token
    characters: the first letter and every letter after a hyphen in
    upper case, the others in lower case. *)
Fixpoint canonical (up : bool) (key : string) : string :=
  match key with
  | EmptyString => EmptyString
  | String c rest =>
      String (if up then strings.upper c else strings.lower c)
             (canonical (Ascii.eqb c "-") rest)
  end.

Definition CanonicalMIMEHeaderKey (key : string) : string :=
  canonical true key.

(** [c.GetHeader(key)]: the empty string when the header is absent. *)
Definition GetHeader (c : Context) (key : string) : string :=
  default EmptyString (Header c !! CanonicalMIMEHeaderKey key).

(** What [c.JSON(code, obj)] writes. *)
Record Response : Type := JSON {
  code : Z;
  obj : gmap string any
}.

End gin.

(** ** Standard output

    One constructor per [fmt.Printf] of the program, with its arguments.
    An error argument is the text of the error, except for
    [LogMkdirError], which carries the errno of the [*PathError] that
    [os.MkdirAll] returns (printed by the program after the operation and
    the path, as in [mkdir /app/webhook_jobs/svc1: ...]). *)

Inductive logline : Type :=
| LogReadFailed (err : string)
| LogSignatureFailed (err : string) (sig_present : bool) (body_len : nat)
| LogIgnoredEvent (event : string)
| LogInvalidJSON (err : string)
| LogIgnoredRef (ref repo : string)
| LogInvalidRepo (repo : string)
| LogDeployQueued (repo : string)
| LogMkdirError (err : string)
| LogDeployTriggered (repo : string).

(** A goroutine started with [go]: the call it will make. *)
Inductive goroutine : Type :=
| GoRunDeploy (repository : string).

(** What one run of the handler produces: the response, the lines printed
    and the goroutines started. *)
Record outcome : Type := Outcome {
  response : gin.Response;
  printed : list logline;
  started : list goroutine
}.

Definition webhookDir : string := "/app/webhook_jobs".

(** The cut set of [init]: quote, space, tab, line feed, carriage return. *)
Definition cutset : string :=
  String "'" (String " " (String (ascii_of_nat 9)
    (String (ascii_of_nat 10) (String (ascii_of_nat 13) EmptyString)))).

(** [init]: [None] stands for the panic.  The secret is the environment
    value trimmed of the cut set; the mailbox root is created. *)
Definition init (getenv : string) (d : disk) : option (string * disk) :=
  let webhookSecret := strings.Trim getenv cutset in
  if String.eqb webhookSecret EmptyString then None
  else
    match os.MkdirAll d webhookDir with
    | (_, Some _) => None
    | (d', None) => Some (webhookSecret, d')
    end.

(** [runDeploy]: the disk after the call and the line it prints. *)
Definition runDeploy (repository : string) (d : disk) : disk * list logline :=
  let repoDir := filepath.Join [webhookDir; repository] in
  match os.MkdirAll d repoDir with
  | (d', Some err) => (d', [LogMkdirError err])
  | (d', None) => (d', [LogDeployTriggered repository])
  end.

Definition run (g : goroutine) (d : disk) : disk * list logline :=
  match g with
  | GoRunDeploy repository => runDeploy repository d
  end.

(** The queue: a slot is pending when its directory exists under the
    mailbox root. *)
Definition slot_path (identity : string) : list string :=
  os.walk webhookDir ++ [identity].

Definition is_pending (d : disk) (identity : string) : bool :=
  bool_decide (os.Stat d (slot_path identity) = Some Dir).

Definition slot_of (entry : list string * node) : option string :=
  match entry with
  | (p, Dir) =>
      match rev p with
      | name :: rparent =>
          if bool_decide (rev rparent = os.walk webhookDir)
          then Some name else None
      | [] => None
      end
  | (_, File) => None
  end.

Definition list_pending (d : disk) : gset string :=
  list_to_set (omap slot_of (map_to_list (nodes d))).

Section Webhook.

(** The secret loaded by [init]. *)
Variable webhookSecret : string.

(** [json.Unmarshal(body, &payload)]: the payload and the error. *)
Variable json_Unmarshal : bytes -> GitHubWebhookPayload * error.

Definition expectedMAC (body : bytes) : string :=
  hex.EncodeToString (hmac.Sum (bytes_of_string webhookSecret) body).

Definition verifySignature (body : bytes) (signature : string) : error :=
  if String.eqb signature EmptyString
     || (String.length signature <? 7)%nat
     || negb (String.eqb (slice_to 7 signature) "sha256=")
  then Some "missing or invalid signature"
  else
    let receivedMAC := slice_from 7 signature in
    if negb (hmac.Equal (bytes_of_string (expectedMAC body))
                        (bytes_of_string receivedMAC))
    then Some "signature mismatch"
    else None.

Definition githubWebhookHandler (c : gin.Context) : outcome :=
  let '(body, err) := gin.ReadAll c in
  match err with
  | Some e =>
      Outcome (gin.JSON http.StatusBadRequest
                 {[ "error" := gin.Str "failed to read body" ]})
              [LogReadFailed e] []
  | None =>
      let signature := gin.GetHeader c "X-Hub-Signature-256" in
      match verifySignature body signature with
      | Some e =>
          Outcome (gin.JSON http.StatusUnauthorized {[ "error" := gin.Str e ]})
                  [LogSignatureFailed e
                     (negb (String.eqb signature EmptyString)) (length body)]
                  []
      | None =>
          let event := gin.GetHeader c "X-GitHub-Event" in
          if negb (String.eqb event "push") then
            Outcome (gin.JSON http.StatusOK
                       {[ "ok" := gin.Bool true;
                          "ignored" := gin.Str "not a push" ]})
                    [LogIgnoredEvent event] []
          else
            match json_Unmarshal body with
            | (_, Some e) =>
                Outcome (gin.JSON http.StatusBadRequest
                           {[ "error" := gin.Str "invalid JSON" ]})
                        [LogInvalidJSON e] []
            | (payload, None) =>
                if negb (String.eqb (Ref payload) "refs/heads/main") then
                  Outcome (gin.JSON http.StatusOK
                             {[ "ok" := gin.Bool true;
                                "ignored" := gin.Str "not main" ]})
                          [LogIgnoredRef (Ref payload)
                                         (Name (Repository payload))] []
                else
                  let repository := Name (Repository payload) in
                  if negb (regexp.MatchString repository) then
                    Outcome (gin.JSON http.StatusOK
                               {[ "ok" := gin.Bool true;
                                  "ignored" := gin.Str "invalid repository" ]})
                            [LogInvalidRepo repository] []
                  else
                    Outcome (gin.JSON http.StatusOK
                               {[ "ok" := gin.Bool true;
                                  "queued" := gin.Bool true ]})
                            [LogDeployQueued repository]
                            [GoRunDeploy repository]
            end
      end
  end.

(** *** The server

    The handler writes its response when it returns; a goroutine it
    started runs at some later step, on the disk as it is then. *)

Record server : Type := Server {
  fs : disk;
  goroutines : list goroutine;
  stdout : list logline;
  responses : list gin.Response
}.

Inductive step : server -> server -> Prop :=
| step_request (s : server) (c : gin.Context) :
    step s
      (let o := githubWebhookHandler c in
       Server (fs s) (goroutines s ++ started o)
              (stdout s ++ printed o) (responses s ++ [response o]))
| step_goroutine (s : server) (before after : list goroutine) (g : goroutine) :
    goroutines s = before ++ g :: after ->
    step s
      (let '(d, out) := run g (fs s) in
       Server d (before ++ after) (stdout s ++ out) (responses s)).

(** A request served to the end: the response of the handler, then the
    goroutines it started. *)
Definition run_all (gs : list goroutine) (d : disk) : disk * list logline :=
  fold_left (fun '(d, out) g => let '(d', out') := run g d in (d', out ++ out'))
            gs (d, []).

Definition serve (d : disk) (c : gin.Context)
  : gin.Response * disk * list logline :=
  let o := githubWebhookHandler c in
  let '(d', out) := run_all (started o) d in
  (response o, d', printed o ++ out).

End Webhook.

(** ** Requests of the deploy workflow

    The body the workflow posts for a push, and a request signed with a
    given secret. *)

Definition dq : string := String "034"%char EmptyString.

Definition push_body (ref name : string) : bytes :=
  bytes_of_string
    ("{" +:+ dq +:+ "ref" +:+ dq +:+ ":" +:+ dq +:+ ref +:+ dq +:+ ","
     +:+ dq +:+ "repository" +:+ dq +:+ ":{"
     +:+ dq +:+ "name" +:+ dq +:+ ":" +:+ dq +:+ name +:+ dq +:+ "}}").

Definition signed_request (secret event : string) (body : bytes) : gin.Context :=
  {| gin.Body := body;
     gin.BodyErr := None;
     gin.Header :=
       {[ "X-Hub-Signature-256" := "sha256=" +:+ expectedMAC secret body;
          "X-Github-Event" := event ]} |}.

(** ** Single-bit mutations *)

Definition flip_ascii (k : nat) (c : ascii) : ascii :=
  let '(Ascii b0 b1 b2 b3 b4 b5 b6 b7) := c in
  match k with
  | 0%nat => Ascii (negb b0) b1 b2 b3 b4 b5 b6 b7
  | 1%nat => Ascii b0 (negb b1) b2 b3 b4 b5 b6 b7
  | 2%nat => Ascii b0 b1 (negb b2) b3 b4 b5 b6 b7
  | 3%nat => Ascii b0 b1 b2 (negb b3) b4 b5 b6 b7
  | 4%nat => Ascii b0 b1 b2 b3 (negb b4) b5 b6 b7
  | 5%nat => Ascii b0 b1 b2 b3 b4 (negb b5) b6 b7
  | 6%nat => Ascii b0 b1 b2 b3 b4 b5 (negb b6) b7
  | _ => Ascii b0 b1 b2 b3 b4 b5 b6 (negb b7)
  end.

(** Bit [k] of the character at index [i] flipped. *)
Fixpoint flip_string (i k : nat) (s : string) : string :=
  match s, i with
  | EmptyString, _ => EmptyString
  | String c rest, O => String (flip_ascii k c) rest
  | String c rest, S i' => String c (flip_string i' k rest)
  end.

Definition flip_bytes (i k : nat) (b : bytes) : bytes :=
  bytes_of_string (flip_string i k (string_of_bytes b)).

(** ** Sample requests and disks *)

Definition push_main_svc1 : gin.Context :=
  signed_request "s3cr3t" "push" (push_body "refs/heads/main" "svc1").

Definition push_dev_svc1 : gin.Context :=
  signed_request "s3cr3t" "push" (push_body "refs/heads/dev" "svc1").

Definition push_main_dotdot : gin.Context :=
  signed_request "s3cr3t" "push" (push_body "refs/heads/main" "../etc").

Definition push_garbage : gin.Context :=
  signed_request "s3cr3t" "push" (bytes_of_string "not json").

Definition ping_garbage : gin.Context :=
  signed_request "s3cr3t" "ping" (bytes_of_string "not json").

Definition unsigned_push : gin.Context :=
  {| gin.Body := push_body "refs/heads/main" "svc1";
     gin.BodyErr := None;
     gin.Header := {[ "X-Github-Event" := "push" ]} |}.

(** A disk with the mailbox root in place, and the same one while the
    storage refuses writes. *)
Definition mailbox : disk :=
  Disk {[ ["app"] := Dir; ["app"; "webhook_jobs"] := Dir ]} true.

Definition mailbox_unavailable : disk :=
  Disk {[ ["app"] := Dir; ["app"; "webhook_jobs"] := Dir ]} false.

(** A name the pattern matches and no directory entry can bear: 256
    letters. *)
Definition long_name : string := string_of_list_ascii (repeat "a"%char 256).

(** A request whose body could not be read, and a mailbox where a
    regular file sits at the slot of [svc1]. *)
Definition unreadable_request : gin.Context :=
  {| gin.Body := [];
     gin.BodyErr := Some "unexpected EOF";
     gin.Header := {[ "X-Github-Event" := "push" ]} |}.

Definition mailbox_blocked : disk :=
  Disk {[ ["app"] := Dir; ["app"; "webhook_jobs"] := Dir;
          ["app"; "webhook_jobs"; "svc1"] := File ]} true.

(** ** Vocabulary for the properties *)

(** A path element that names an entry: not empty, not [.] and not [..]. *)
Definition real_element (e : string) : bool :=
  negb (String.eqb e EmptyString) && negb (String.eqb e ".")
  && negb (String.eqb e "..").

Definition is_dotdot (e : string) : bool := String.eqb e "..".

(** A goroutine whose argument the pattern has matched. *)
Definition matched (g : goroutine) : Prop :=
  match g with
  | GoRunDeploy repository => regexp.MatchString repository = true
  end.

(** * Properties *)

(** ** The library models on known values *)

Example sha256_abc :
  hex.EncodeToString (sha256.Sum256 (bytes_of_string "abc"))
  = "ba7816bf8f01cfea414140de5dae2223b00361a396177a9cb410ff61f20015ad".
Proof. vm_compute. reflexivity. Qed.

Example sha256_empty :
  hex.EncodeToString (sha256.Sum256 [])
  = "e3b0c44298fc1c149afbf4c8996fb92427ae41e4649b934ca495991b7852b855".
Proof. vm_compute. reflexivity. Qed.

(** RFC 4231, test case 2. *)
Example hmac_sha256_jefe :
  hex.EncodeToString
    (hmac.Sum (bytes_of_string "Jefe")
              (bytes_of_string "what do ya want for nothing?"))
  = "5bdcc146bf60754e6a042426089575c75a003f089d2739839dec58b964ec3843".
Proof. vm_compute. reflexivity. Qed.

(** A key longer than the block size is hashed first. *)
Example hmac_sha256_long_key :
  hex.EncodeToString
    (hmac.Sum (repeat "k"%byte 65) (bytes_of_string "hello"))
  = "edbbe32a95786f734ec02887a09a8814b83f71be6ed8ff8d5c6049bdc2d035cc".
Proof. vm_compute. reflexivity. Qed.

Example Join_of_a_name :
  filepath.Join [webhookDir; "svc1"] = "/app/webhook_jobs/svc1".
Proof. reflexivity. Qed.

(** What [Join] would make of names the pattern refuses. *)
Example Join_of_dotdot :
  filepath.Join [webhookDir; ".."] = "/app"
  /\ filepath.Join [webhookDir; "../../etc/x"] = "/etc/x"
  /\ filepath.Join [webhookDir; EmptyString] = "/app/webhook_jobs"
  /\ regexp.MatchString ".." = false
  /\ regexp.MatchString "../../etc/x" = false
  /\ regexp.MatchString EmptyString = false.
Proof. repeat split; reflexivity. Qed.

Example Unmarshal_push_body :
  json.Unmarshal (push_body "refs/heads/main" "svc1")
  = ({| Ref := "refs/heads/main"; Repository := {| Name := "svc1" |} |}, None).
Proof. vm_compute. reflexivity. Qed.

Example init_trims_the_secret :
  option_map fst (init " 's3cr3t' " mailbox) = Some "s3cr3t"
  /\ init "  " mailbox = None
  /\ init "s3cr3t" mailbox_unavailable = Some ("s3cr3t", mailbox_unavailable)
  /\ init "s3cr3t" (Disk ∅ false) = None.
Proof. vm_compute. repeat split; reflexivity. Qed.

(** ** Bytes *)

Lemma byte_val_range (b : byte) : 0 <= byte_val b < 256.
Proof.
  unfold byte_val. split; [apply N2Z.is_nonneg|].
  change 256 with (Z.succ (Z.of_N 255)).
  apply Z.lt_succ_r, N2Z.inj_le, Byte.to_N_bounded.
Qed.

Lemma byte_val_inj (a b : byte) : byte_val a = byte_val b -> a = b.
Proof.
  unfold byte_val. intros H. apply N2Z.inj in H.
  pose proof (Byte.of_to_N a) as Ha. rewrite H, Byte.of_to_N in Ha.
  congruence.
Qed.

Lemma bytes_of_string_inj (s t : string) :
  bytes_of_string s = bytes_of_string t -> s = t.
Proof.
  unfold bytes_of_string. intros H.
  rewrite <- (string_of_list_byte_of_string s), H.
  apply string_of_list_byte_of_string.
Qed.

Lemma below_256 (a : Z) : 0 <= a -> (a < 256 <-> a = 0 \/ Z.log2 a < 8).
Proof.
  intros Ha. destruct (Z.eq_dec a 0) as [->|Hn].
  - split; [now left | lia].
  - change 256 with (2 ^ 8). rewrite (Z.log2_lt_pow2 a 8) by lia.
    split; [now right | intros [?|?]; [lia | assumption]].
Qed.

Lemma lor_below_256 (v w : Z) :
  0 <= v < 256 -> 0 <= w < 256 -> 0 <= Z.lor v w < 256.
Proof.
  intros [Hv0 Hv] [Hw0 Hw].
  assert (H0 : 0 <= Z.lor v w) by (apply Z.lor_nonneg; lia).
  split; [exact H0|].
  apply below_256; [exact H0|].
  apply below_256 in Hv; [|exact Hv0]. apply below_256 in Hw; [|exact Hw0].
  destruct (Z.eq_dec (Z.lor v w) 0) as [?|Hn]; [now left | right].
  rewrite Z.log2_lor by lia.
  destruct Hv as [->|Hv], Hw as [->|Hw]; simpl Z.log2; lia.
Qed.

Lemma lxor_below_256 (v w : Z) :
  0 <= v < 256 -> 0 <= w < 256 -> 0 <= Z.lxor v w < 256.
Proof.
  intros [Hv0 Hv] [Hw0 Hw].
  assert (H0 : 0 <= Z.lxor v w) by (apply Z.lxor_nonneg; lia).
  split; [exact H0|].
  apply below_256; [exact H0|].
  apply below_256 in Hv; [|exact Hv0]. apply below_256 in Hw; [|exact Hw0].
  destruct (Z.eq_dec (Z.lxor v w) 0) as [?|Hn]; [now left | right].
  pose proof (Z.log2_lxor v w Hv0 Hw0) as Hl.
  destruct Hv as [->|Hv]; [rewrite Z.lxor_0_l in *|].
  - destruct Hw as [->|Hw]; [congruence | exact Hw].
  - destruct Hw as [->|Hw]; [rewrite Z.lxor_0_r; exact Hv | lia].
Qed.

(** ** crypto/subtle and [hmac.Equal] *)

Lemma ConstantTimeByteEq_zero (v : Z) :
  0 <= v < 256 ->
  subtle.ConstantTimeByteEq v 0 = if Z.eqb v 0 then 1 else 0.
Proof.
  intros Hv. unfold subtle.ConstantTimeByteEq, sha256.uint32.
  rewrite Z.lxor_0_r.
  destruct (Z.eqb_spec v 0) as [->|Hn]; [reflexivity|].
  rewrite Z.mod_small by lia.
  rewrite Z.shiftr_div_pow2 by lia.
  apply Z.div_small. lia.
Qed.

Lemma compare_loop_value (x : bytes) :
  forall (y : bytes) (i : nat) (v : Z),
    length x = length y -> 0 <= v < 256 ->
    0 <= fst (subtle.compare_loop i x y v) < 256
    /\ (fst (subtle.compare_loop i x y v) = 0 <-> v = 0 /\ x = y).
Proof.
  induction x as [|a x IH]; intros [|b y] i v Hlen Hv; simpl in *;
    try discriminate.
  - split; [exact Hv | tauto].
  - injection Hlen as Hlen.
    set (v1 := Z.lor v (Z.lxor (byte_val a) (byte_val b))).
    assert (Hv1 : 0 <= v1 < 256).
    { apply lor_below_256; [exact Hv|].
      apply lxor_below_256; apply byte_val_range. }
    specialize (IH y (S i) v1 Hlen Hv1).
    destruct (subtle.compare_loop (S i) x y v1) as [r t]. simpl in *.
    destruct IH as [Hr Hiff]. split; [exact Hr|].
    rewrite Hiff. unfold v1. rewrite Z.lor_eq_0_iff, Z.lxor_eq_0_iff.
    split.
    + intros [[-> Hab] ->]. apply byte_val_inj in Hab. subst. tauto.
    + intros [-> Heq]. injection Heq as -> ->. tauto.
Qed.

Lemma compare_loop_leak (x : bytes) :
  forall (y : bytes) (i : nat) (v : Z),
    length x = length y ->
    snd (subtle.compare_loop i x y v) = subtle.loop_leak i (length x).
Proof.
  induction x as [|a x IH]; intros [|b y] i v Hlen; simpl in *;
    try discriminate; [reflexivity|].
  injection Hlen as Hlen.
  specialize (IH y (S i) (Z.lor v (Z.lxor (byte_val a) (byte_val b))) Hlen).
  destruct (subtle.compare_loop (S i) x y _) as [r t]. simpl in *.
  now rewrite IH.
Qed.

Lemma ConstantTimeCompare_one_iff (x y : bytes) :
  subtle.ConstantTimeCompare x y = 1 <-> x = y.
Proof.
  unfold subtle.ConstantTimeCompare, subtle.ConstantTimeCompare_leaky.
  destruct (Nat.eqb_spec (length x) (length y)) as [Hlen|Hlen]; simpl.
  - pose proof (compare_loop_value x y 0%nat 0 Hlen ltac:(lia)) as [Hr Hiff].
    destruct (subtle.compare_loop 0 x y 0) as [r t]. simpl in *.
    rewrite ConstantTimeByteEq_zero by exact Hr.
    destruct (Z.eqb_spec r 0) as [Hz|Hz].
    + split; [intros _; now apply Hiff | reflexivity].
    + split; [discriminate | intros Heq; exfalso; apply Hz, Hiff; tauto].
  - split; [discriminate | intros ->; contradiction].
Qed.

Lemma Equal_iff (x y : bytes) : hmac.Equal x y = true <-> x = y.
Proof.
  unfold hmac.Equal. rewrite Z.eqb_eq. apply ConstantTimeCompare_one_iff.
Qed.

Lemma leakage_by_length (x y : bytes) :
  subtle.leakage x y
  = if (length x =? length y)%nat
    then subtle.Branch false :: subtle.loop_leak 0 (length x)
    else [subtle.Branch true].
Proof.
  unfold subtle.leakage, subtle.ConstantTimeCompare_leaky.
  destruct (Nat.eqb_spec (length x) (length y)) as [Hlen|Hlen]; simpl;
    [|reflexivity].
  pose proof (compare_loop_leak x y 0%nat 0 Hlen) as Hl.
  destruct (subtle.compare_loop 0 x y 0) as [r t]. simpl in *.
  now rewrite Hl.
Qed.

(** ** Slices of strings *)

Lemma substring_0_append (a b : string) :
  String.substring 0 (String.length a) (a +:+ b) = a.
Proof.
  induction a as [|c a IH]; simpl.
  - now destruct b.
  - now rewrite IH.
Qed.

Lemma substring_0_length (b : string) :
  String.substring 0 (String.length b) b = b.
Proof. induction b as [|c b IH]; simpl; [reflexivity | now rewrite IH]. Qed.

Lemma substring_skip_append (a b : string) (m : nat) :
  String.substring (String.length a) m (a +:+ b) = String.substring 0 m b.
Proof. induction a as [|c a IH]; simpl; [reflexivity | exact IH]. Qed.

Lemma length_append (a b : string) :
  String.length (a +:+ b) = (String.length a + String.length b)%nat.
Proof. induction a as [|c a IH]; simpl; [reflexivity | now rewrite IH]. Qed.

Lemma slice_to_append (a b : string) :
  slice_to (String.length a) (a +:+ b) = a.
Proof. apply substring_0_append. Qed.

Lemma slice_from_append (a b : string) :
  slice_from (String.length a) (a +:+ b) = b.
Proof.
  unfold slice_from. rewrite substring_skip_append, length_append.
  replace (String.length a + String.length b - String.length a)%nat
    with (String.length b) by lia.
  apply substring_0_length.
Qed.

Lemma slice_split (n : nat) :
  forall s : string,
    (n <= String.length s)%nat -> slice_to n s +:+ slice_from n s = s.
Proof.
  unfold slice_to, slice_from.
  induction n as [|n IH]; intros s Hn.
  - rewrite Nat.sub_0_r, substring_0_length. now destruct s.
  - destruct s as [|c s]; simpl in *; [lia|].
    assert (Hs : (n <= String.length s)%nat) by lia.
    apply IH in Hs. apply (f_equal (String c)) in Hs. exact Hs.
Qed.

(** ** [verifySignature] *)

Section VerifySignature.

Variable webhookSecret : string.

(** The signature header that carries the expected MAC of a body. *)
Lemma verifySignature_nil_iff (body : bytes) (signature : string) :
  verifySignature webhookSecret body signature = None
  <-> signature = "sha256=" +:+ expectedMAC webhookSecret body.
Proof.
  unfold verifySignature. split.
  - destruct (String.eqb signature EmptyString); [discriminate|].
    destruct (Nat.ltb_spec (String.length signature) 7) as [|Hlen];
      [discriminate|].
    destruct (String.eqb_spec (slice_to 7 signature) "sha256=") as [Hp|];
      [|discriminate].
    cbn [orb negb].
    destruct (hmac.Equal _ _) eqn:Heq; [|discriminate].
    intros _. apply Equal_iff, bytes_of_string_inj in Heq.
    rewrite Heq, <- Hp. symmetry. now apply slice_split.
  - intros ->.
    change 7%nat with (String.length "sha256=").
    rewrite slice_to_append, slice_from_append.
    replace (hmac.Equal _ _) with true by (symmetry; now apply Equal_iff).
    rewrite length_append. reflexivity.
Qed.

Lemma verifySignature_cases (body : bytes) (signature : string) :
  verifySignature webhookSecret body signature = None
  \/ verifySignature webhookSecret body signature
     = Some "missing or invalid signature"
  \/ verifySignature webhookSecret body signature
     = Some "signature mismatch".
Proof.
  unfold verifySignature.
  destruct (_ || _ || _); [tauto|].
  destruct (negb _); tauto.
Qed.

End VerifySignature.

(** ** The handler *)

Lemma run_all_nil (d : disk) : run_all [] d = (d, []).
Proof. reflexivity. Qed.

Lemma run_all_one (g : goroutine) (d : disk) : run_all [g] d = run g d.
Proof. unfold run_all. simpl. now destruct (run g d). Qed.

(** A request that stops in the handler leaves the disk alone. *)
Lemma serve_nothing_started
  (secret : string) (dec : bytes -> GitHubWebhookPayload * error)
  (c : gin.Context) (r : gin.Response) (out : list logline) :
  githubWebhookHandler secret dec c = Outcome r out [] ->
  forall d : disk, serve secret dec d c = (r, d, out).
Proof.
  intros H d. unfold serve. rewrite H. simpl. now rewrite app_nil_r.
Qed.

Lemma some_signature_error (secret : string) (c : gin.Context) :
  let signature := gin.GetHeader c "X-Hub-Signature-256" in
  gin.Header c !! "X-Hub-Signature-256" = None
  \/ signature = EmptyString
  \/ slice_to 7 signature <> "sha256="
  \/ slice_from 7 signature <> expectedMAC secret (gin.Body c) ->
  exists e : string, verifySignature secret (gin.Body c) signature = Some e.
Proof.
  intros signature H.
  destruct (verifySignature secret (gin.Body c) signature) as [e|] eqn:Hv;
    [now exists e|].
  exfalso. apply verifySignature_nil_iff in Hv.
  assert (H7 : String.length "sha256=" = 7%nat) by reflexivity.
  destruct H as [H|[H|[H|H]]].
  - unfold signature, gin.GetHeader in Hv.
    change (gin.CanonicalMIMEHeaderKey "X-Hub-Signature-256")
      with "X-Hub-Signature-256" in Hv.
    rewrite H in Hv. discriminate.
  - rewrite H in Hv. discriminate.
  - apply H. rewrite Hv, <- H7. apply slice_to_append.
  - apply H. rewrite Hv, <- H7. apply slice_from_append.
Qed.

(** C6, as amended. A request whose body was read and whose signature
    header is missing, empty, without the [sha256=] prefix, or whose value
    after the prefix is not the expected MAC of the body, is answered 401
    with the verification error; the only line printed is the signature
    failure, whatever the event header and the JSON decoder are, no
    goroutine is started and the disk is left as it was. *)
Theorem bad_signature_is_unauthorized (secret : string) (c : gin.Context) :
  gin.BodyErr c = None ->
  gin.Header c !! "X-Hub-Signature-256" = None
  \/ gin.GetHeader c "X-Hub-Signature-256" = EmptyString
  \/ slice_to 7 (gin.GetHeader c "X-Hub-Signature-256") <> "sha256="
  \/ slice_from 7 (gin.GetHeader c "X-Hub-Signature-256")
     <> expectedMAC secret (gin.Body c) ->
  exists e : string,
    verifySignature secret (gin.Body c) (gin.GetHeader c "X-Hub-Signature-256")
    = Some e
    /\ forall dec : bytes -> GitHubWebhookPayload * error,
        let r := gin.JSON http.StatusUnauthorized {[ "error" := gin.Str e ]} in
        let out :=
          [LogSignatureFailed e
             (negb (String.eqb (gin.GetHeader c "X-Hub-Signature-256")
                               EmptyString))
             (length (gin.Body c))] in
        githubWebhookHandler secret dec c = Outcome r out []
        /\ forall d : disk, serve secret dec d c = (r, d, out).
Proof.
  intros Hbody Hsig.
  destruct (some_signature_error secret c Hsig) as [e He].
  exists e. split; [exact He|]. intros dec r out.
  assert (Ho : githubWebhookHandler secret dec c = Outcome r out []).
  { unfold githubWebhookHandler, gin.ReadAll. rewrite Hbody, He. reflexivity. }
  split; [exact Ho | now apply serve_nothing_started].
Qed.

(** C4. A correctly signed push whose payload names another ref than
    [refs/heads/main] is answered 200 with [ignored: "not main"]; no
    goroutine is started and the disk, hence every queue slot, is left as
    it was. *)
Theorem other_ref_is_ignored
  (secret : string) (dec : bytes -> GitHubWebhookPayload * error)
  (c : gin.Context) (payload : GitHubWebhookPayload) :
  gin.BodyErr c = None ->
  verifySignature secret (gin.Body c) (gin.GetHeader c "X-Hub-Signature-256")
  = None ->
  gin.GetHeader c "X-GitHub-Event" = "push" ->
  dec (gin.Body c) = (payload, None) ->
  Ref payload <> "refs/heads/main" ->
  let r := gin.JSON http.StatusOK
             {[ "ok" := gin.Bool true; "ignored" := gin.Str "not main" ]} in
  let out := [LogIgnoredRef (Ref payload) (Name (Repository payload))] in
  githubWebhookHandler secret dec c = Outcome r out []
  /\ forall d : disk,
      serve secret dec d c = (r, d, out)
      /\ list_pending (snd (fst (serve secret dec d c))) = list_pending d.
Proof.
  intros Hbody Hsig Hev Hdec Href r out.
  assert (Ho : githubWebhookHandler secret dec c = Outcome r out []).
  { unfold githubWebhookHandler, gin.ReadAll.
    rewrite Hbody, Hsig, Hev, Hdec. simpl.
    destruct (String.eqb_spec (Ref payload) "refs/heads/main");
      [contradiction | reflexivity]. }
  split; [exact Ho|]. intros d.
  rewrite (serve_nothing_started _ _ _ _ _ Ho d). now split.
Qed.

(** C5, as amended. A correctly signed request of event type [push] whose
    body the JSON decoder rejects is answered 400 with [invalid JSON]; no
    goroutine is started and the disk is left as it was. *)
Theorem unparseable_push_is_bad_request
  (secret : string) (dec : bytes -> GitHubWebhookPayload * error)
  (c : gin.Context) (payload : GitHubWebhookPayload) (e : string) :
  gin.BodyErr c = None ->
  verifySignature secret (gin.Body c) (gin.GetHeader c "X-Hub-Signature-256")
  = None ->
  gin.GetHeader c "X-GitHub-Event" = "push" ->
  dec (gin.Body c) = (payload, Some e) ->
  let r := gin.JSON http.StatusBadRequest {[ "error" := gin.Str "invalid JSON" ]} in
  githubWebhookHandler secret dec c = Outcome r [LogInvalidJSON e] []
  /\ forall d : disk, serve secret dec d c = (r, d, [LogInvalidJSON e]).
Proof.
  intros Hbody Hsig Hev Hdec r.
  assert (Ho : githubWebhookHandler secret dec c
               = Outcome r [LogInvalidJSON e] []).
  { unfold githubWebhookHandler, gin.ReadAll.
    rewrite Hbody, Hsig, Hev, Hdec. reflexivity. }
  split; [exact Ho | now apply serve_nothing_started].
Qed.

(** C7. A correctly signed push on [refs/heads/main] whose repository name
    does not match [repoNamePattern] is answered 200 with
    [ignored: "invalid repository"]; no goroutine is started and the
    disk, hence every queue slot, is left as it was. *)
Theorem invalid_identity_is_ignored
  (secret : string) (dec : bytes -> GitHubWebhookPayload * error)
  (c : gin.Context) (payload : GitHubWebhookPayload) :
  gin.BodyErr c = None ->
  verifySignature secret (gin.Body c) (gin.GetHeader c "X-Hub-Signature-256")
  = None ->
  gin.GetHeader c "X-GitHub-Event" = "push" ->
  dec (gin.Body c) = (payload, None) ->
  Ref payload = "refs/heads/main" ->
  regexp.MatchString (Name (Repository payload)) = false ->
  let r := gin.JSON http.StatusOK
             {[ "ok" := gin.Bool true;
                "ignored" := gin.Str "invalid repository" ]} in
  let out := [LogInvalidRepo (Name (Repository payload))] in
  githubWebhookHandler secret dec c = Outcome r out []
  /\ forall d : disk,
      serve secret dec d c = (r, d, out)
      /\ list_pending (snd (fst (serve secret dec d c))) = list_pending d.
Proof.
  intros Hbody Hsig Hev Hdec Href Hname r out.
  assert (Ho : githubWebhookHandler secret dec c = Outcome r out []).
  { unfold githubWebhookHandler, gin.ReadAll.
    rewrite Hbody, Hsig, Hev, Hdec, Href, Hname. reflexivity. }
  split; [exact Ho|]. intros d.
  rewrite (serve_nothing_started _ _ _ _ _ Ho d). now split.
Qed.

(** ** [repoNamePattern] and [filepath.Join] *)

Lemma class_not_separator (c : ascii) :
  regexp.class c = true -> Ascii.eqb c filepath.Separator = false.
Proof.
  intros Hc. destruct (Ascii.eqb_spec c filepath.Separator) as [->|];
    [vm_compute in Hc; discriminate | reflexivity].
Qed.

Lemma class_not_dot (c : ascii) : regexp.class c = true -> c <> "."%char.
Proof. intros Hc ->. vm_compute in Hc. discriminate. Qed.

Lemma MatchString_iff (s : string) :
  regexp.MatchString s = true
  <-> s <> EmptyString /\ regexp.all_in_class s = true.
Proof.
  destruct s as [|c s]; simpl.
  - split; [discriminate | intros [H _]; congruence].
  - split; [intros H; split; [discriminate | exact H] | tauto].
Qed.

Lemma elements_not_nil (s : string) : filepath.elements s <> [].
Proof.
  induction s as [|c s IH]; simpl; [discriminate|].
  destruct (Ascii.eqb c filepath.Separator); [discriminate|].
  destruct (filepath.elements s); discriminate.
Qed.

Lemma elements_append_separator (a b : string) :
  filepath.elements (a +:+ String filepath.Separator b)
  = filepath.elements a ++ filepath.elements b.
Proof.
  induction a as [|c a IH]; simpl.
  - reflexivity.
  - rewrite IH. destruct (Ascii.eqb c filepath.Separator); [reflexivity|].
    pose proof (elements_not_nil a) as Hn.
    destruct (filepath.elements a); [contradiction | reflexivity].
Qed.

Lemma elements_one (s : string) :
  regexp.all_in_class s = true -> filepath.elements s = [s].
Proof.
  induction s as [|c s IH]; simpl; [reflexivity|].
  intros H. apply andb_prop in H as [Hc Hs].
  rewrite (class_not_separator c Hc), (IH Hs). reflexivity.
Qed.

(** A name the pattern accepts is a real path element. *)
Lemma matched_name_is_element (name : string) :
  regexp.MatchString name = true ->
  String.eqb name EmptyString = false
  /\ String.eqb name "." = false
  /\ String.eqb name ".." = false
  /\ filepath.elements name = [name].
Proof.
  intros H. apply MatchString_iff in H as [Hne Hall].
  repeat split.
  - now apply String.eqb_neq.
  - apply String.eqb_neq. intros ->. discriminate Hall.
  - apply String.eqb_neq. intros ->. discriminate Hall.
  - now apply elements_one.
Qed.

Lemma Join_matched_name (name : string) :
  regexp.MatchString name = true ->
  filepath.Join [webhookDir; name] = webhookDir +:+ "/" +:+ name.
Proof.
  intros H. destruct (matched_name_is_element name H) as (H0 & H1 & H2 & He).
  change (filepath.Join [webhookDir; name])
    with (filepath.Clean (webhookDir +:+ String filepath.Separator name)).
  change (filepath.Clean (webhookDir +:+ String filepath.Separator name))
    with ("/" +:+ String.concat "/"
            (rev (fold_left (filepath.clean_step true)
                    (filepath.elements
                       (webhookDir +:+ String filepath.Separator name)) []))).
  rewrite elements_append_separator, He.
  change (filepath.elements webhookDir) with [EmptyString; "app"; "webhook_jobs"].
  cbn [app fold_left]. unfold filepath.clean_step at 1. cbn [String.eqb].
  unfold filepath.clean_step at 1. rewrite H0, H1, H2.
  reflexivity.
Qed.

Lemma walk_Join_matched_name (name : string) :
  regexp.MatchString name = true ->
  os.walk (filepath.Join [webhookDir; name]) = slot_path name.
Proof.
  intros H. rewrite (Join_matched_name name H).
  destruct (matched_name_is_element name H) as (H0 & _ & _ & He).
  unfold os.walk, slot_path.
  change (webhookDir +:+ "/" +:+ name)
    with (webhookDir +:+ String filepath.Separator name).
  rewrite elements_append_separator, He.
  change (filepath.elements webhookDir) with [EmptyString; "app"; "webhook_jobs"].
  apply String.eqb_neq in H0.
  cbn [app].
  rewrite filter_cons_False by (intros Hf; now apply Hf).
  rewrite filter_cons_True by discriminate.
  rewrite filter_cons_True by discriminate.
  rewrite filter_cons_True by exact H0.
  reflexivity.
Qed.

(** ** [os.MkdirAll] *)

Lemma Stat_not_nil (d : disk) (p : list string) :
  p <> [] -> os.Stat d p = nodes d !! p.
Proof. destruct p; [congruence | reflexivity]. Qed.

Lemma rev_cons_not_nil {A : Type} (x : A) (l : list A) : rev (x :: l) <> [].
Proof. simpl. destruct (rev l); discriminate. Qed.

(** [Mkdir] either adds the directory or fails and changes nothing. *)
Lemma Mkdir_cases (d : disk) (p : list string) :
  (os.Mkdir d p = (Disk (<[p := Dir]> (nodes d)) (writable d), None)
   /\ os.Stat d p = None)
  \/ exists e : string, os.Mkdir d p = (d, Some e).
Proof.
  unfold os.Mkdir.
  destruct (existsb os.has_nul p); [right; eauto|].
  destruct (existsb os.too_long p); [right; eauto|].
  destruct (os.Stat d p) as [n|]; [right; eauto|].
  destruct (os.Stat d (removelast p)) as [[|]|]; [|right; eauto..].
  destruct (writable d); [left; split; reflexivity | right; eauto].
Qed.

(** What [MkdirAll] changes: it only adds directories, at prefixes of the
    path that were absent, and it reports success exactly when the path is
    a directory afterwards. *)
Lemma MkdirAll_rev_spec (rp : list string) :
  forall (d d' : disk) (e : error),
    os.MkdirAll_rev d rp = (d', e) ->
    writable d' = writable d
    /\ (forall q : list string,
          nodes d' !! q <> nodes d !! q ->
          nodes d !! q = None /\ nodes d' !! q = Some Dir
          /\ exists k : nat, q = rev (drop k rp))
    /\ (e = None <-> os.Stat d' (rev rp) = Some Dir).
Proof.
  induction rp as [|x rq IH]; intros d d' e.
  - simpl. intros [= <- <-]. repeat split; congruence.
  - cbn [os.MkdirAll_rev].
    pose proof (rev_cons_not_nil x rq) as Hp.
    destruct (os.Stat d (rev (x :: rq))) as [[|]|] eqn:Hst.
    + intros [= <- <-]. repeat split; congruence.
    + intros [= <- <-]. repeat split; try congruence.
    + destruct (os.MkdirAll_rev d rq) as [d1 e1] eqn:Hrec.
      destruct (IH d d1 e1 Hrec) as (Hw1 & Hfr1 & Hok1).
      assert (Hst1 : nodes d1 !! rev (x :: rq) = None).
      { rewrite Stat_not_nil in Hst by exact Hp.
        destruct (decide (nodes d1 !! rev (x :: rq) = nodes d !! rev (x :: rq)))
          as [Heq|Hne]; [congruence|].
        apply Hfr1 in Hne as (_ & _ & k & Hk).
        apply (f_equal (@length string)) in Hk.
        rewrite !length_rev, length_drop in Hk. simpl in Hk. lia. }
      assert (Hfr1' : forall q : list string,
                 nodes d1 !! q <> nodes d !! q ->
                 nodes d !! q = None /\ nodes d1 !! q = Some Dir
                 /\ exists k : nat, q = rev (drop k (x :: rq))).
      { intros q Hq. destruct (Hfr1 q Hq) as (? & ? & k & Hk).
        repeat split; try assumption. now exists (S k). }
      destruct e1 as [e1|].
      * intros [= <- <-]. split; [exact Hw1|]. split; [exact Hfr1'|].
        rewrite Stat_not_nil by exact Hp. rewrite Hst1.
        split; discriminate.
      * destruct (Mkdir_cases d1 (rev (x :: rq))) as [[Hmk _]|[e2 Hmk]];
          rewrite Hmk.
        -- intros [= <- <-]. split; [exact Hw1|]. split.
           ++ intros q. cbn [nodes].
              destruct (decide (q = rev (x :: rq))) as [->|Hq].
              ** rewrite lookup_insert_eq. intros _.
                 rewrite Stat_not_nil in Hst by exact Hp.
                 repeat split; try assumption.
                 now exists 0%nat.
              ** rewrite lookup_insert_ne
                   by (intros Heq; apply Hq; symmetry; exact Heq).
                 apply Hfr1'.
           ++ split; [intros _|reflexivity].
              rewrite Stat_not_nil by exact Hp. cbn [nodes].
              apply lookup_insert_eq.
        -- rewrite (Stat_not_nil d1) by exact Hp. rewrite Hst1.
           intros [= <- <-]. split; [exact Hw1|]. split; [exact Hfr1'|].
           rewrite Stat_not_nil by exact Hp. rewrite Hst1.
           split; discriminate.
Qed.

(** A second [MkdirAll] of the same path finds the disk as the first one
    left it and ends the same way. *)
Lemma MkdirAll_rev_idempotent (rp : list string) :
  forall (d d' : disk) (e : error),
    os.MkdirAll_rev d rp = (d', e) -> os.MkdirAll_rev d' rp = (d', e).
Proof.
  induction rp as [|x rq IH]; intros d d' e.
  - simpl. now intros [= <- <-].
  - intros H. pose proof H as H0. revert H.
    cbn [os.MkdirAll_rev].
    pose proof (rev_cons_not_nil x rq) as Hp.
    destruct (os.Stat d (rev (x :: rq))) as [[|]|] eqn:Hst.
    + intros [= <- <-]. now rewrite Hst.
    + intros [= <- <-]. now rewrite Hst.
    + destruct (os.MkdirAll_rev d rq) as [d1 e1] eqn:Hrec.
      pose proof (IH d d1 e1 Hrec) as Hidem.
      destruct (MkdirAll_rev_spec rq d d1 e1 Hrec) as (_ & Hfr1 & _).
      assert (Hst1 : os.Stat d1 (rev (x :: rq)) = None).
      { rewrite Stat_not_nil in Hst |- * by exact Hp.
        destruct (decide (nodes d1 !! rev (x :: rq) = nodes d !! rev (x :: rq)))
          as [Heq|Hne]; [congruence|].
        apply Hfr1 in Hne as (_ & _ & k & Hk).
        apply (f_equal (@length string)) in Hk.
        rewrite !length_rev, length_drop in Hk. simpl in Hk. lia. }
      destruct e1 as [e1|].
      * intros [= <- <-]. now rewrite Hst1, Hidem.
      * destruct (Mkdir_cases d1 (rev (x :: rq))) as [[Hmk _]|[e2 Hmk]];
          rewrite Hmk.
        -- intros [= <- <-].
           destruct (MkdirAll_rev_spec (x :: rq) d _ None H0) as (_ & _ & Hok).
           now rewrite (proj1 Hok eq_refl).
        -- rewrite Hst1. intros [= <- <-].
           now rewrite Hst1, Hidem, Hmk, Hst1.
Qed.

(** With the parent in place, [MkdirAll] touches the path itself and
    nothing else. *)
Lemma MkdirAll_rev_parent_exists (d : disk) (x : string) (rq : list string) :
  os.Stat d (rev rq) = Some Dir ->
  forall q : list string,
    q <> rev (x :: rq) ->
    nodes (fst (os.MkdirAll_rev d (x :: rq))) !! q = nodes d !! q.
Proof.
  intros Hparent q Hq. cbn [os.MkdirAll_rev].
  destruct (os.Stat d (rev (x :: rq))) as [[|]|]; try reflexivity.
  assert (Hrec : os.MkdirAll_rev d rq = (d, None)).
  { destruct rq; [reflexivity | cbn [os.MkdirAll_rev]; now rewrite Hparent]. }
  rewrite Hrec.
  destruct (Mkdir_cases d (rev (x :: rq))) as [[Hmk _]|[e2 Hmk]]; rewrite Hmk.
  - cbn [fst nodes].
    now rewrite lookup_insert_ne by (intros Heq; apply Hq; symmetry; exact Heq).
  - now destruct (os.Stat d (rev (x :: rq))) as [[|]|].
Qed.

(** ** The queue *)

Lemma slot_path_not_nil (name : string) : slot_path name <> [].
Proof. unfold slot_path. destruct (os.walk webhookDir); discriminate. Qed.

Lemma slot_path_inj (a b : string) : slot_path a = slot_path b -> a = b.
Proof. unfold slot_path. intros H. now apply app_inj_tail in H as [_ ?]. Qed.

Lemma slot_of_Some (p : list string) (n : node) (name : string) :
  slot_of (p, n) = Some name <-> n = Dir /\ p = slot_path name.
Proof.
  unfold slot_of, slot_path. split.
  - destruct n; [|discriminate].
    destruct (rev p) as [|x rparent] eqn:Hrev; [discriminate|].
    case_bool_decide as Hroot; [|discriminate].
    intros [= ->]. split; [reflexivity|].
    rewrite <- (rev_involutive p), Hrev. simpl. now rewrite Hroot.
  - intros [-> ->]. rewrite rev_app_distr. reflexivity.
Qed.

Lemma elem_of_list_pending (d : disk) (name : string) :
  name ∈ list_pending d <-> nodes d !! slot_path name = Some Dir.
Proof.
  unfold list_pending. rewrite elem_of_list_to_set, list_elem_of_omap. split.
  - intros [[p n] [Hin Hs]]. apply elem_of_map_to_list in Hin.
    apply slot_of_Some in Hs as [-> ->]. exact Hin.
  - intros H. exists (slot_path name, Dir). split.
    + now apply elem_of_map_to_list.
    + now apply slot_of_Some.
Qed.

Lemma is_pending_true (d : disk) (name : string) :
  is_pending d name = true <-> nodes d !! slot_path name = Some Dir.
Proof.
  unfold is_pending. rewrite bool_decide_eq_true.
  now rewrite Stat_not_nil by apply slot_path_not_nil.
Qed.

(** [runDeploy] of a matched name is [MkdirAll] of its slot path. *)
Lemma runDeploy_matched_name (name : string) (d : disk) :
  regexp.MatchString name = true ->
  runDeploy name d
  = match os.MkdirAll_rev d (rev (slot_path name)) with
    | (d', Some err) => (d', [LogMkdirError err])
    | (d', None) => (d', [LogDeployTriggered name])
    end.
Proof.
  intros H. unfold runDeploy, os.MkdirAll.
  now rewrite (walk_Join_matched_name name H).
Qed.


(** A second [runDeploy] finds the disk as the first one left it and
    prints the same line, whatever the string and the disk. *)
Lemma runDeploy_twice (repository : string) (d : disk) :
  runDeploy repository (fst (runDeploy repository d))
  = (fst (runDeploy repository d), snd (runDeploy repository d)).
Proof.
  unfold runDeploy, os.MkdirAll.
  set (rp := rev (os.walk (filepath.Join [webhookDir; repository]))).
  destruct (os.MkdirAll_rev d rp) as [d' e] eqn:Hmk.
  apply MkdirAll_rev_idempotent in Hmk.
  destruct e; cbn [fst snd]; now rewrite Hmk.
Qed.

(** ** Accepted triggers *)

(** The handler starts a goroutine on one path only: signature verified,
    event [push], payload decoded, ref [refs/heads/main], name matched. *)
Lemma handler_started
  (secret : string) (dec : bytes -> GitHubWebhookPayload * error)
  (c : gin.Context) (g : goroutine) :
  In g (started (githubWebhookHandler secret dec c)) ->
  exists payload : GitHubWebhookPayload,
    gin.BodyErr c = None
    /\ verifySignature secret (gin.Body c)
         (gin.GetHeader c "X-Hub-Signature-256") = None
    /\ gin.GetHeader c "X-GitHub-Event" = "push"
    /\ dec (gin.Body c) = (payload, None)
    /\ Ref payload = "refs/heads/main"
    /\ regexp.MatchString (Name (Repository payload)) = true
    /\ g = GoRunDeploy (Name (Repository payload)).
Proof.
  unfold githubWebhookHandler, gin.ReadAll.
  destruct (gin.BodyErr c); [intros []|].
  destruct (verifySignature _ _ _); [intros []|].
  destruct (String.eqb_spec (gin.GetHeader c "X-GitHub-Event") "push")
    as [Hev|]; [|intros []].
  destruct (dec (gin.Body c)) as [payload [e|]]; [intros []|].
  destruct (String.eqb_spec (Ref payload) "refs/heads/main") as [Href|];
    [|intros []].
  destruct (regexp.MatchString (Name (Repository payload))) eqn:Hm;
    [|intros []].
  simpl. intros [<-|[]]. exists payload. repeat split; assumption.
Qed.

Lemma handler_accepts
  (secret : string) (dec : bytes -> GitHubWebhookPayload * error)
  (c : gin.Context) (payload : GitHubWebhookPayload) :
  gin.BodyErr c = None ->
  verifySignature secret (gin.Body c) (gin.GetHeader c "X-Hub-Signature-256")
  = None ->
  gin.GetHeader c "X-GitHub-Event" = "push" ->
  dec (gin.Body c) = (payload, None) ->
  Ref payload = "refs/heads/main" ->
  regexp.MatchString (Name (Repository payload)) = true ->
  githubWebhookHandler secret dec c
  = Outcome (gin.JSON http.StatusOK
               {[ "ok" := gin.Bool true; "queued" := gin.Bool true ]})
            [LogDeployQueued (Name (Repository payload))]
            [GoRunDeploy (Name (Repository payload))].
Proof.
  intros Hbody Hsig Hev Hdec Href Hname.
  unfold githubWebhookHandler, gin.ReadAll.
  rewrite Hbody, Hsig, Hev, Hdec, Href, Hname. reflexivity.
Qed.

(** C9. Every goroutine the handler starts is [runDeploy] of a name the
    pattern matched; the directory it makes is the mailbox root followed by
    that name as one real path element (not empty, not [.] or [..], no
    separator inside), so it lies strictly inside the root; and on a disk
    where the root is a directory the goroutine changes no other path. *)
Theorem slot_is_strictly_inside_root
  (secret : string) (dec : bytes -> GitHubWebhookPayload * error)
  (c : gin.Context) (g : goroutine) :
  In g (started (githubWebhookHandler secret dec c)) ->
  exists name : string,
    g = GoRunDeploy name
    /\ filepath.Join [webhookDir; name] = webhookDir +:+ "/" +:+ name
    /\ os.walk (filepath.Join [webhookDir; name]) = os.walk webhookDir ++ [name]
    /\ filepath.elements name = [name]
    /\ name <> EmptyString /\ name <> "." /\ name <> ".."
    /\ forall d : disk,
        os.Stat d (os.walk webhookDir) = Some Dir ->
        forall q : list string,
          q <> os.walk webhookDir ++ [name] ->
          nodes (fst (run g d)) !! q = nodes d !! q.
Proof.
  intros Hg.
  destruct (handler_started secret dec c g Hg)
    as (payload & _ & _ & _ & _ & _ & Hm & ->).
  set (name := Name (Repository payload)) in *.
  destruct (matched_name_is_element name Hm) as (H0 & H1 & H2 & He).
  exists name. split; [reflexivity|].
  split; [now apply Join_matched_name|].
  split; [now apply walk_Join_matched_name|].
  split; [exact He|].
  split; [now apply String.eqb_neq|].
  split; [now apply String.eqb_neq|].
  split; [now apply String.eqb_neq|].
  intros d Hroot q Hq. cbn [run].
  rewrite (runDeploy_matched_name name d Hm).
  fold (slot_path name) in Hq.
  assert (Hrev : rev (slot_path name) = name :: rev (os.walk webhookDir)).
  { unfold slot_path. now rewrite rev_app_distr. }
  rewrite Hrev.
  pose proof (MkdirAll_rev_parent_exists d name (rev (os.walk webhookDir))) as Hfr.
  rewrite rev_involutive in Hfr. specialize (Hfr Hroot q).
  rewrite <- Hrev, rev_involutive in Hfr. specialize (Hfr Hq).
  rewrite Hrev in Hfr.
  destruct (os.MkdirAll_rev d (name :: rev (os.walk webhookDir))) as [d' [e|]];
    exact Hfr.
Qed.


(** ** Lengths *)

Lemma length_bytes_of_string (s : string) :
  length (bytes_of_string s) = String.length s.
Proof.
  unfold bytes_of_string, list_byte_of_string.
  rewrite length_map. induction s as [|c s IH]; simpl; [reflexivity|].
  now rewrite IH.
Qed.

Lemma length_slice_from (n : nat) :
  forall s : string,
    String.length (slice_from n s) = (String.length s - n)%nat.
Proof.
  unfold slice_from. induction n as [|n IH]; intros s.
  - now rewrite Nat.sub_0_r, substring_0_length.
  - destruct s as [|c s]; [reflexivity|]. simpl. apply IH.
Qed.

Lemma length_block (h chunk : list Z) : length (sha256.block h chunk) = 8%nat.
Proof.
  unfold sha256.block.
  now destruct (fold_left sha256.round _ _).
Qed.

Lemma length_blocks (fuel : nat) :
  forall h p : list Z,
    length h = 8%nat -> length (sha256.blocks fuel h p) = 8%nat.
Proof.
  induction fuel as [|fuel IH]; intros h p Hh; simpl; [exact Hh|].
  apply IH, length_block.
Qed.

Lemma length_Sum256 (data : bytes) : length (sha256.Sum256 data) = 32%nat.
Proof.
  unfold sha256.Sum256. rewrite length_map.
  pose proof (length_blocks
                (length (map byte_val data ++ sha256.padding (length data)) / 64)
                sha256.init
                (map byte_val data ++ sha256.padding (length data))
                eq_refl) as Hh.
  destruct (sha256.blocks _ _ _)
    as [|h0 [|h1 [|h2 [|h3 [|h4 [|h5 [|h6 [|h7 [|]]]]]]]]];
    try discriminate.
  reflexivity.
Qed.

Lemma length_EncodeToString (src : bytes) :
  String.length (hex.EncodeToString src) = (2 * length src)%nat.
Proof. induction src as [|v src IH]; simpl; [reflexivity | rewrite IH; lia]. Qed.

Lemma length_expectedMAC (secret : string) (body : bytes) :
  String.length (expectedMAC secret body) = 64%nat.
Proof.
  unfold expectedMAC, hmac.Sum.
  now rewrite length_EncodeToString, length_Sum256.
Qed.

(** The branches and indices recorded by the model of
    [subtle.ConstantTimeCompare], on the two values [verifySignature]
    passes to [hmac.Equal], depend on the length of the header only. *)
Lemma leakage_of_the_comparison
  (secret secret' : string) (body body' : bytes) (signature signature' : string) :
  String.length signature = String.length signature' ->
  subtle.leakage (bytes_of_string (expectedMAC secret body))
                 (bytes_of_string (slice_from 7 signature))
  = subtle.leakage (bytes_of_string (expectedMAC secret' body'))
                   (bytes_of_string (slice_from 7 signature')).
Proof.
  intros Hlen. rewrite !leakage_by_length, !length_bytes_of_string.
  now rewrite !length_expectedMAC, !length_slice_from, Hlen.
Qed.

(** ** Hexadecimal text *)

Lemma decode_encode_byte (v : byte) :
  hex.fromHexChar (hex.digit (Z.shiftr (byte_val v) 4))
  = Some (Z.shiftr (byte_val v) 4)
  /\ hex.fromHexChar (hex.digit (Z.land (byte_val v) 0x0f))
     = Some (Z.land (byte_val v) 0x0f)
  /\ byte_of_Z (Z.lor (Z.shiftl (Z.shiftr (byte_val v) 4) 4)
                      (Z.land (byte_val v) 0x0f)) = v.
Proof. destruct v; vm_compute; repeat split; reflexivity. Qed.

Lemma DecodeString_EncodeToString (src : bytes) :
  hex.DecodeString (hex.EncodeToString src) = Some src.
Proof.
  induction src as [|v src IH]; [reflexivity|].
  cbn [hex.EncodeToString hex.DecodeString].
  destruct (decode_encode_byte v) as (-> & -> & ->). now rewrite IH.
Qed.

Lemma EncodeToString_inj (a b : bytes) :
  hex.EncodeToString a = hex.EncodeToString b -> a = b.
Proof.
  intros H. apply (f_equal hex.DecodeString) in H.
  rewrite !DecodeString_EncodeToString in H. congruence.
Qed.

Lemma EncodeToString_lower (src : bytes) :
  forallb hex.is_lower_hex (list_ascii_of_string (hex.EncodeToString src)) = true.
Proof.
  induction src as [|v src IH]; [reflexivity|].
  cbn [hex.EncodeToString list_ascii_of_string forallb]. rewrite IH.
  destruct v; vm_compute; reflexivity.
Qed.

(** C10. The received value is compared as text with the lower-case
    hexadecimal encoding of the MAC: a signature is accepted exactly when
    it is [sha256=] followed by that text, which holds no upper-case digit;
    and there is a request whose signature carries the right MAC written
    in upper case and is rejected as a mismatch. *)
Theorem uppercase_signature_is_rejected :
  (forall (secret : string) (body : bytes) (received : string),
      verifySignature secret body ("sha256=" +:+ received) = None
      <-> received = hex.EncodeToString
                       (hmac.Sum (bytes_of_string secret) body))
  /\ (forall src : bytes,
        forallb hex.is_lower_hex
                (list_ascii_of_string (hex.EncodeToString src)) = true)
  /\ exists (secret : string) (body : bytes) (received : string),
      received = strings.ToUpper (expectedMAC secret body)
      /\ hex.DecodeString received = Some (hmac.Sum (bytes_of_string secret) body)
      /\ verifySignature secret body ("sha256=" +:+ received)
         = Some "signature mismatch"
      /\ verifySignature secret body ("sha256=" +:+ expectedMAC secret body)
         = None.
Proof.
  split; [|split].
  - intros secret body received. rewrite verifySignature_nil_iff.
    unfold expectedMAC. split.
    + intros H. cbn [String.append] in H. now injection H.
    + now intros ->.
  - exact EncodeToString_lower.
  - exists "s3cr3t", (push_body "refs/heads/main" "svc1"),
      "3A3795590B4E8C975F0CEB7DE5B0ECF72F662DE7247BAD1BB43BE47EFE7F6B8A".
    vm_compute. repeat split; reflexivity.
Qed.

(** ** Mutations of a signed request *)

Lemma verifySignature_accepts_own_mac (secret : string) (body : bytes) :
  verifySignature secret body ("sha256=" +:+ expectedMAC secret body) = None.
Proof. now apply verifySignature_nil_iff. Qed.

Lemma flip_ascii_neq (k : nat) (c : ascii) : flip_ascii k c <> c.
Proof.
  destruct c as [b0 b1 b2 b3 b4 b5 b6 b7].
  do 8 (destruct k as [|k]; [destruct b0, b1, b2, b3, b4, b5, b6, b7; discriminate|]).
  destruct b0, b1, b2, b3, b4, b5, b6, b7; discriminate.
Qed.

Lemma flip_string_neq (i k : nat) :
  forall s : string, (i < String.length s)%nat -> flip_string i k s <> s.
Proof.
  induction i as [|i IH]; intros [|c s] Hlen; simpl in *; try lia.
  - intros [= H]. now apply flip_ascii_neq in H.
  - intros [= H]. apply IH in H; [exact H | lia].
Qed.

(** X7. Any single-bit mutation of the signature header that carries the
    expected MAC is rejected. *)
Lemma mutated_signature_is_rejected
  (secret : string) (body : bytes) (i k : nat) :
  (i < String.length ("sha256=" +:+ expectedMAC secret body))%nat ->
  verifySignature secret body
    (flip_string i k ("sha256=" +:+ expectedMAC secret body)) <> None.
Proof.
  intros Hi Hv. apply verifySignature_nil_iff in Hv.
  now apply flip_string_neq in Hv.
Qed.

(** X8. Another body passes under the signature of a given one exactly
    when the two bodies have the same MAC under the secret. *)
Lemma mutated_body_accepted_iff_same_mac (secret : string) (body body' : bytes) :
  verifySignature secret body' ("sha256=" +:+ expectedMAC secret body) = None
  <-> hmac.Sum (bytes_of_string secret) body'
      = hmac.Sum (bytes_of_string secret) body.
Proof.
  rewrite verifySignature_nil_iff. unfold expectedMAC. split.
  - intros H. cbn [String.append] in H. injection H as H.
    symmetry. now apply EncodeToString_inj.
  - now intros ->.
Qed.

Example mutated_body_is_rejected :
  let body := push_body "refs/heads/main" "svc1" in
  verifySignature "s3cr3t" (flip_bytes 8 0 body)
    ("sha256=" +:+ expectedMAC "s3cr3t" body)
  = Some "signature mismatch".
Proof. vm_compute. reflexivity. Qed.

(** ** [init] *)

Lemma init_establishes (getenv : string) (d : disk) (secret : string) (d' : disk) :
  init getenv d = Some (secret, d') ->
  secret <> EmptyString /\ os.Stat d' (os.walk webhookDir) = Some Dir.
Proof.
  unfold init, os.MkdirAll.
  destruct (String.eqb_spec (strings.Trim getenv cutset) EmptyString) as [|Hne];
    [discriminate|].
  destruct (os.MkdirAll_rev d (rev (os.walk webhookDir))) as [d1 [e|]] eqn:Hmk;
    [discriminate|].
  intros [= <- <-]. split; [exact Hne|].
  destruct (MkdirAll_rev_spec _ d d1 None Hmk) as (_ & _ & Hok).
  rewrite rev_involutive in Hok. now apply Hok.
Qed.

(** ** The theorems at sample requests *)

Lemma bad_signature_is_unauthorized_witness :
  gin.BodyErr unsigned_push = None
  /\ gin.Header unsigned_push !! "X-Hub-Signature-256" = None
  /\ forall d : disk,
      gin.code (fst (fst (serve "s3cr3t" json.Unmarshal d unsigned_push)))
      = http.StatusUnauthorized
      /\ snd (fst (serve "s3cr3t" json.Unmarshal d unsigned_push)) = d.
Proof.
  split; [reflexivity|]. split; [reflexivity|]. intros d.
  destruct (bad_signature_is_unauthorized "s3cr3t" unsigned_push
              eq_refl (or_introl eq_refl)) as (e & _ & H).
  destruct (H json.Unmarshal) as [_ Hs]. rewrite (Hs d). now split.
Defined.

Lemma other_ref_is_ignored_witness :
  Ref (fst (json.Unmarshal (gin.Body push_dev_svc1))) <> "refs/heads/main"
  /\ forall d : disk,
      serve "s3cr3t" json.Unmarshal d push_dev_svc1
      = (gin.JSON http.StatusOK
           {[ "ok" := gin.Bool true; "ignored" := gin.Str "not main" ]},
         d, [LogIgnoredRef "refs/heads/dev" "svc1"]).
Proof.
  split; [vm_compute; discriminate|]. intros d.
  apply (other_ref_is_ignored "s3cr3t" json.Unmarshal push_dev_svc1
           {| Ref := "refs/heads/dev"; Repository := {| Name := "svc1" |} |});
    vm_compute; (reflexivity || discriminate).
Defined.

Lemma unparseable_push_is_bad_request_witness :
  snd (json.Unmarshal (gin.Body push_garbage)) = Some "invalid character"
  /\ forall d : disk,
      serve "s3cr3t" json.Unmarshal d push_garbage
      = (gin.JSON http.StatusBadRequest {[ "error" := gin.Str "invalid JSON" ]},
         d, [LogInvalidJSON "invalid character"]).
Proof.
  split; [vm_compute; reflexivity|]. intros d.
  apply (unparseable_push_is_bad_request "s3cr3t" json.Unmarshal push_garbage
           zero_payload "invalid character");
    vm_compute; reflexivity.
Defined.

Lemma invalid_identity_is_ignored_witness :
  regexp.MatchString "../etc" = false
  /\ forall d : disk,
      serve "s3cr3t" json.Unmarshal d push_main_dotdot
      = (gin.JSON http.StatusOK
           {[ "ok" := gin.Bool true;
              "ignored" := gin.Str "invalid repository" ]},
         d, [LogInvalidRepo "../etc"]).
Proof.
  split; [reflexivity|]. intros d.
  apply (invalid_identity_is_ignored "s3cr3t" json.Unmarshal push_main_dotdot
           {| Ref := "refs/heads/main"; Repository := {| Name := "../etc" |} |});
    vm_compute; reflexivity.
Defined.

Lemma slot_is_strictly_inside_root_witness :
  In (GoRunDeploy "svc1")
     (started (githubWebhookHandler "s3cr3t" json.Unmarshal push_main_svc1))
  /\ exists name : string,
      GoRunDeploy "svc1" = GoRunDeploy name
      /\ filepath.Join [webhookDir; name] = webhookDir +:+ "/" +:+ name
      /\ os.walk (filepath.Join [webhookDir; name]) = os.walk webhookDir ++ [name].
Proof.
  assert (Hin : In (GoRunDeploy "svc1")
                   (started (githubWebhookHandler "s3cr3t" json.Unmarshal
                               push_main_svc1))).
  { vm_compute. left. reflexivity. }
  split; [exact Hin|].
  destruct (slot_is_strictly_inside_root "s3cr3t" json.Unmarshal
              push_main_svc1 (GoRunDeploy "svc1") Hin)
    as (name & Hg & Hj & Hw & _).
  exists name. repeat split; assumption.
Defined.


(** ** Where the code departs from the specification *)


(** C6 as stated fails: a request without a signature header whose body
    cannot be read is answered 400, not 401, since the body is read before
    the signature is looked at. *)
Lemma unsigned_unreadable_request_is_not_unauthorized :
  gin.Header unreadable_request !! "X-Hub-Signature-256" = None
  /\ gin.GetHeader unreadable_request "X-Hub-Signature-256" = EmptyString
  /\ response (githubWebhookHandler "s3cr3t" json.Unmarshal unreadable_request)
     = gin.JSON http.StatusBadRequest
         {[ "error" := gin.Str "failed to read body" ]}
  /\ gin.code (response (githubWebhookHandler "s3cr3t" json.Unmarshal
                           unreadable_request))
     <> http.StatusUnauthorized.
Proof. vm_compute. repeat split; try reflexivity. discriminate. Qed.

(** C5 as stated fails: a correctly signed request of another event type
    with a body that is not JSON is answered 200, not 400. *)
Lemma unparseable_ping_is_not_a_bad_request :
  verifySignature "s3cr3t" (gin.Body ping_garbage)
    (gin.GetHeader ping_garbage "X-Hub-Signature-256") = None
  /\ snd (json.Unmarshal (gin.Body ping_garbage)) = Some "invalid character"
  /\ response (githubWebhookHandler "s3cr3t" json.Unmarshal ping_garbage)
     = gin.JSON http.StatusOK
         {[ "ok" := gin.Bool true; "ignored" := gin.Str "not a push" ]}
  /\ gin.code (response (githubWebhookHandler "s3cr3t" json.Unmarshal
                           ping_garbage))
     <> http.StatusBadRequest.
Proof. vm_compute. repeat split; try reflexivity. discriminate. Qed.

(** * Further properties of the code *)

(** ** The handler as a whole *)

(** X1. Whatever the request, the handler answers 200, 400 or 401, never
    a server error: a 200 carries [ok: true] and no [error], a 400 or 401
    carries an [error] text and no [ok]. *)
Theorem handler_answers_200_400_or_401
  (secret : string) (dec : bytes -> GitHubWebhookPayload * error)
  (c : gin.Context) :
  let r := response (githubWebhookHandler secret dec c) in
  (gin.code r = http.StatusOK
   /\ gin.obj r !! "ok" = Some (gin.Bool true)
   /\ gin.obj r !! "error" = None)
  \/ ((gin.code r = http.StatusBadRequest
       \/ gin.code r = http.StatusUnauthorized)
      /\ gin.obj r !! "ok" = None
      /\ exists e : string, gin.obj r !! "error" = Some (gin.Str e)).
Proof.
  unfold githubWebhookHandler, gin.ReadAll.
  destruct (gin.BodyErr c) as [e0|].
  { right. cbn. split; [now left|]. split; [reflexivity | eauto]. }
  destruct (verifySignature _ _ _) as [e1|].
  { right. cbn. split; [now right|]. split; [reflexivity|].
    exists e1. apply lookup_singleton_eq. }
  destruct (negb (String.eqb (gin.GetHeader c "X-GitHub-Event") "push")).
  { left. cbn. repeat split; reflexivity. }
  destruct (dec (gin.Body c)) as [payload [e2|]].
  { right. cbn. split; [now left|]. split; [reflexivity | eauto]. }
  destruct (negb (String.eqb (Ref payload) "refs/heads/main")).
  { left. cbn. repeat split; reflexivity. }
  destruct (negb (regexp.MatchString (Name (Repository payload))));
    left; cbn; repeat split; reflexivity.
Qed.

(** X2. The handler prints exactly one line and starts at most one
    goroutine; it starts one exactly when the response says
    [queued: true], and then that goroutine is [runDeploy] of the name
    printed as queued. *)
Theorem queued_exactly_when_a_goroutine_is_started
  (secret : string) (dec : bytes -> GitHubWebhookPayload * error)
  (c : gin.Context) :
  let o := githubWebhookHandler secret dec c in
  length (printed o) = 1%nat
  /\ ((started o = []
       /\ gin.obj (response o) !! "queued" = None)
      \/ exists name : string,
          started o = [GoRunDeploy name]
          /\ printed o = [LogDeployQueued name]
          /\ gin.obj (response o) !! "queued" = Some (gin.Bool true)).
Proof.
  unfold githubWebhookHandler, gin.ReadAll.
  destruct (gin.BodyErr c) as [e0|];
    [split; [reflexivity | left; split; reflexivity]|].
  destruct (verifySignature _ _ _) as [e1|].
  { split; [reflexivity | left; split; [reflexivity|]].
    cbn. now apply lookup_singleton_ne. }
  destruct (negb (String.eqb (gin.GetHeader c "X-GitHub-Event") "push"));
    [split; [reflexivity | left; split; reflexivity]|].
  destruct (dec (gin.Body c)) as [payload [e2|]];
    [split; [reflexivity | left; split; reflexivity]|].
  destruct (negb (String.eqb (Ref payload) "refs/heads/main"));
    [split; [reflexivity | left; split; reflexivity]|].
  destruct (negb (regexp.MatchString (Name (Repository payload))));
    [split; [reflexivity | left; split; reflexivity]|].
  split; [reflexivity | right].
  exists (Name (Repository payload)). repeat split; reflexivity.
Qed.

(** X3. A correctly signed request whose event header is not [push], or
    is absent, is answered 200 with [ignored: "not a push"] whatever its
    body holds: the JSON decoder has no part in the outcome and nothing is
    started. *)
Theorem other_event_is_ignored_unparsed
  (secret : string) (c : gin.Context) :
  gin.BodyErr c = None ->
  verifySignature secret (gin.Body c) (gin.GetHeader c "X-Hub-Signature-256")
  = None ->
  gin.GetHeader c "X-GitHub-Event" <> "push" ->
  forall dec : bytes -> GitHubWebhookPayload * error,
    githubWebhookHandler secret dec c
    = Outcome (gin.JSON http.StatusOK
                 {[ "ok" := gin.Bool true; "ignored" := gin.Str "not a push" ]})
              [LogIgnoredEvent (gin.GetHeader c "X-GitHub-Event")] [].
Proof.
  intros Hbody Hsig Hev dec.
  unfold githubWebhookHandler, gin.ReadAll. rewrite Hbody, Hsig.
  destruct (String.eqb_spec (gin.GetHeader c "X-GitHub-Event") "push");
    [contradiction | reflexivity].
Qed.

(** X4. A request whose body cannot be read is answered 400 with
    [failed to read body] before anything else is looked at: the
    signature is not verified, so even an unsigned request gets 400 and not
    401. *)
Theorem unreadable_body_is_bad_request
  (secret : string) (dec : bytes -> GitHubWebhookPayload * error)
  (c : gin.Context) (e : string) :
  gin.BodyErr c = Some e ->
  githubWebhookHandler secret dec c
  = Outcome (gin.JSON http.StatusBadRequest
               {[ "error" := gin.Str "failed to read body" ]})
            [LogReadFailed e] []
  /\ forall d : disk,
      serve secret dec d c
      = (gin.JSON http.StatusBadRequest
           {[ "error" := gin.Str "failed to read body" ]},
         d, [LogReadFailed e]).
Proof.
  intros Hbody.
  assert (Ho : githubWebhookHandler secret dec c
               = Outcome (gin.JSON http.StatusBadRequest
                            {[ "error" := gin.Str "failed to read body" ]})
                         [LogReadFailed e] []).
  { unfold githubWebhookHandler, gin.ReadAll. now rewrite Hbody. }
  split; [exact Ho | now apply serve_nothing_started].
Qed.

(** ** More on [verifySignature] *)

Lemma length_slice_to (n : nat) :
  forall s : string,
    String.length (slice_to n s) = Nat.min n (String.length s).
Proof.
  unfold slice_to. induction n as [|n IH]; intros [|c s]; simpl;
    try reflexivity.
  now rewrite IH.
Qed.

Lemma prefix_slice_to (signature : string) :
  String.prefix "sha256=" signature = true
  <-> slice_to 7 signature = "sha256=".
Proof. apply (String.prefix_correct "sha256=" signature). Qed.

(** X5. The two errors of [verifySignature]: the header is "missing or
    invalid" exactly when it does not start with [sha256=] (an empty or
    short header included), and it is a "signature mismatch" exactly when
    it has the prefix and what follows is not the expected MAC. *)
Theorem verifySignature_errors
  (secret : string) (body : bytes) (signature : string) :
  (verifySignature secret body signature = Some "missing or invalid signature"
   <-> String.prefix "sha256=" signature = false)
  /\ (verifySignature secret body signature = Some "signature mismatch"
      <-> String.prefix "sha256=" signature = true
          /\ slice_from 7 signature <> expectedMAC secret body).
Proof.
  assert (Hcond :
    String.eqb signature EmptyString
    || (String.length signature <? 7)%nat
    || negb (String.eqb (slice_to 7 signature) "sha256=")
    = negb (String.prefix "sha256=" signature)).
  { destruct (String.prefix "sha256=" signature) eqn:Hp.
    - apply prefix_slice_to in Hp.
      pose proof (length_slice_to 7 signature) as Hl. rewrite Hp in Hl.
      simpl String.length in Hl.
      rewrite Hp. simpl negb. rewrite orb_false_r.
      apply orb_false_iff. split.
      + apply String.eqb_neq. intros ->. simpl in Hl. lia.
      + apply Nat.ltb_ge. lia.
    - assert (Hn : slice_to 7 signature <> "sha256=").
      { intros H. apply prefix_slice_to in H. congruence. }
      apply String.eqb_neq in Hn. rewrite Hn. simpl. apply orb_true_r. }
  unfold verifySignature. rewrite Hcond.
  destruct (String.prefix "sha256=" signature); cbn [negb].
  - destruct (hmac.Equal _ _) eqn:Heq; cbn [negb].
    + apply Equal_iff, bytes_of_string_inj in Heq.
      split; [split; discriminate|].
      split; [discriminate | intros [_ H]; now rewrite Heq in H].
    + split; [split; discriminate|].
      split; [intros _; split; [reflexivity|] | reflexivity].
      intros H. rewrite H in Heq.
      assert (Ht : hmac.Equal (bytes_of_string (expectedMAC secret body))
                              (bytes_of_string (expectedMAC secret body)) = true)
        by now apply Equal_iff.
      congruence.
  - split; [split; reflexivity|].
    split; [discriminate | intros [H _]; discriminate].
Qed.

(** X6. The expected MAC is always 64 lower-case hexadecimal digits, so a
    header that [verifySignature] accepts is 71 characters long. *)
Theorem accepted_signature_is_71_characters
  (secret : string) (body : bytes) (signature : string) :
  verifySignature secret body signature = None ->
  String.length signature = 71%nat
  /\ String.length (slice_from 7 signature) = 64%nat
  /\ forallb hex.is_lower_hex (list_ascii_of_string (slice_from 7 signature))
     = true.
Proof.
  intros H. apply verifySignature_nil_iff in H. subst signature.
  change 7%nat with (String.length "sha256=").
  rewrite slice_from_append, length_append, length_expectedMAC.
  repeat split. apply EncodeToString_lower.
Qed.

(** X9. [hmac.Equal] decides the equality of two byte slices, and
    [subtle.ConstantTimeCompare] returns 1 or 0 accordingly. *)
Theorem Equal_decides_equality (x y : bytes) :
  hmac.Equal x y = bool_decide (x = y)
  /\ subtle.ConstantTimeCompare x y = (if bool_decide (x = y) then 1 else 0).
Proof.
  assert (Hv : subtle.ConstantTimeCompare x y = 0
               \/ subtle.ConstantTimeCompare x y = 1).
  { unfold subtle.ConstantTimeCompare, subtle.ConstantTimeCompare_leaky.
    destruct (Nat.eqb_spec (length x) (length y)) as [Hlen|]; simpl;
      [|now left].
    pose proof (compare_loop_value x y 0%nat 0 Hlen ltac:(lia)) as [Hr _].
    destruct (subtle.compare_loop 0 x y 0) as [r t]. simpl in *.
    rewrite ConstantTimeByteEq_zero by exact Hr.
    destruct (Z.eqb r 0); [now right | now left]. }
  pose proof (ConstantTimeCompare_one_iff x y) as Hiff.
  unfold hmac.Equal. case_bool_decide as Hxy.
  - rewrite (proj2 Hiff Hxy). now split.
  - destruct Hv as [Hv|Hv]; [rewrite Hv; now split|].
    now apply Hiff in Hv.
Qed.

(** ** More on [runDeploy] and [os.MkdirAll] *)

Lemma MkdirAll_rev_existing (d : disk) (rp : list string) :
  os.Stat d (rev rp) = Some Dir -> os.MkdirAll_rev d rp = (d, None).
Proof.
  intros H. destruct rp; [reflexivity|].
  cbn [os.MkdirAll_rev]. now rewrite H.
Qed.

Lemma Mkdir_unwritable (d : disk) (p : list string) :
  writable d = false -> fst (os.Mkdir d p) = d.
Proof.
  intros Hw. unfold os.Mkdir.
  destruct (existsb os.has_nul p); [reflexivity|].
  destruct (existsb os.too_long p); [reflexivity|].
  destruct (os.Stat d p); [reflexivity|].
  destruct (os.Stat d (removelast p)) as [[|]|]; try reflexivity.
  now rewrite Hw.
Qed.

Lemma MkdirAll_rev_unwritable (rp : list string) :
  forall d : disk, writable d = false -> fst (os.MkdirAll_rev d rp) = d.
Proof.
  induction rp as [|x rq IH]; intros d Hw.
  - reflexivity.
  - cbn [os.MkdirAll_rev].
    destruct (os.Stat d (rev (x :: rq))) as [[|]|]; try reflexivity.
    specialize (IH d Hw).
    destruct (os.MkdirAll_rev d rq) as [d1 [e1|]]; cbn [fst] in IH; subst d1;
      [reflexivity|].
    pose proof (Mkdir_unwritable d (rev (x :: rq)) Hw) as Hmk.
    destruct (os.Mkdir d (rev (x :: rq))) as [d2 [e2|]]; cbn [fst] in Hmk;
      subst d2; [|reflexivity].
    now destruct (os.Stat d (rev (x :: rq))) as [[|]|].
Qed.

Lemma class_not_nul (c : ascii) :
  regexp.class c = true -> Ascii.eqb Ascii.zero c = false.
Proof.
  intros Hc. destruct (Ascii.eqb_spec Ascii.zero c) as [<-|];
    [vm_compute in Hc; discriminate | reflexivity].
Qed.

Lemma matched_name_has_no_nul (name : string) :
  regexp.MatchString name = true -> os.has_nul name = false.
Proof.
  intros H. apply MatchString_iff in H as [_ Hall]. unfold os.has_nul.
  induction name as [|c name IH]; [reflexivity|].
  cbn [regexp.all_in_class] in Hall. apply andb_prop in Hall as [Hc Hn].
  cbn [list_ascii_of_string existsb]. now rewrite (class_not_nul c Hc), IH.
Qed.

(** The name checks of [Mkdir] on a slot path come down to the length of
    the name. *)
Lemma slot_path_checks (name : string) :
  regexp.MatchString name = true ->
  existsb os.has_nul (slot_path name) = false
  /\ existsb os.too_long (slot_path name) = os.too_long name.
Proof.
  intros Hm. unfold slot_path.
  change (os.walk webhookDir) with ["app"; "webhook_jobs"].
  cbn [app existsb].
  rewrite (matched_name_has_no_nul name Hm).
  change (os.has_nul "app") with false.
  change (os.has_nul "webhook_jobs") with false.
  change (os.too_long "app") with false.
  change (os.too_long "webhook_jobs") with false.
  cbn [orb]. now rewrite orb_false_r.
Qed.

(** [runDeploy] of a matched name on a disk where the mailbox root is a
    directory, case by case on what is at the slot path. *)
Lemma runDeploy_on_mailbox (name : string) (d : disk) :
  regexp.MatchString name = true ->
  os.Stat d (os.walk webhookDir) = Some Dir ->
  runDeploy name d
  = match nodes d !! slot_path name with
    | Some Dir => (d, [LogDeployTriggered name])
    | Some File => (d, [LogMkdirError "not a directory"])
    | None =>
        if os.too_long name
        then (d, [LogMkdirError "file name too long"])
        else if writable d
        then (Disk (<[slot_path name := Dir]> (nodes d)) (writable d),
              [LogDeployTriggered name])
        else (d, [LogMkdirError "read-only file system"])
    end.
Proof.
  intros Hm Hroot. rewrite (runDeploy_matched_name name d Hm).
  assert (Hrev : rev (slot_path name) = name :: rev (os.walk webhookDir)).
  { unfold slot_path. now rewrite rev_app_distr. }
  assert (Hback : rev (name :: rev (os.walk webhookDir)) = slot_path name).
  { rewrite <- Hrev. apply rev_involutive. }
  rewrite Hrev. cbn [os.MkdirAll_rev]. rewrite Hback.
  rewrite (Stat_not_nil d (slot_path name)) by apply slot_path_not_nil.
  destruct (nodes d !! slot_path name) as [[|]|] eqn:Hslot; try reflexivity.
  rewrite (MkdirAll_rev_existing d (rev (os.walk webhookDir)))
    by now rewrite rev_involutive.
  unfold os.Mkdir.
  destruct (slot_path_checks name Hm) as [-> ->].
  rewrite (Stat_not_nil d (slot_path name)) by apply slot_path_not_nil.
  rewrite Hslot.
  destruct (os.too_long name).
  { rewrite (Stat_not_nil d (slot_path name)) by apply slot_path_not_nil.
    now rewrite Hslot. }
  replace (removelast (slot_path name)) with (os.walk webhookDir)
    by (unfold slot_path; now rewrite removelast_last).
  rewrite Hroot.
  destruct (writable d); [reflexivity|].
  rewrite (Stat_not_nil d (slot_path name)) by apply slot_path_not_nil.
  now rewrite Hslot.
Qed.

Lemma short_name_is_not_too_long (name : string) :
  (String.length name <= os.NAME_MAX)%nat -> os.too_long name = false.
Proof. intros H. unfold os.too_long. now apply Nat.ltb_ge. Qed.

(** X10. On a mailbox whose root is a directory and whose storage accepts
    writes, [runDeploy] of a matched name of at most [NAME_MAX] bytes
    succeeds unless a regular file sits at the slot path: it prints the
    success line, the slot is pending afterwards and no other path has
    changed. *)
Theorem runDeploy_succeeds_on_a_healthy_mailbox (name : string) (d : disk) :
  regexp.MatchString name = true ->
  (String.length name <= os.NAME_MAX)%nat ->
  os.Stat d (os.walk webhookDir) = Some Dir ->
  writable d = true ->
  nodes d !! slot_path name <> Some File ->
  snd (runDeploy name d) = [LogDeployTriggered name]
  /\ is_pending (fst (runDeploy name d)) name = true
  /\ nodes (fst (runDeploy name d)) = <[slot_path name := Dir]> (nodes d).
Proof.
  intros Hm Hlen Hroot Hw Hfile.
  rewrite (runDeploy_on_mailbox name d Hm Hroot).
  rewrite (short_name_is_not_too_long name Hlen).
  destruct (nodes d !! slot_path name) as [[|]|] eqn:Hslot;
    [| contradiction |]; cbn [fst snd].
  - split; [reflexivity|]. split; [now apply is_pending_true|].
    symmetry. now apply insert_id.
  - rewrite Hw. cbn [fst snd nodes]. split; [reflexivity|].
    split; [|reflexivity]. apply is_pending_true. cbn [nodes].
    apply lookup_insert_eq.
Qed.

(** X11. A regular file at the slot path blocks the slot: [runDeploy]
    prints [not a directory], changes nothing, and the slot is not
    pending, however often the push is repeated. *)
Theorem runDeploy_is_blocked_by_a_file (name : string) (d : disk) (n : nat) :
  regexp.MatchString name = true ->
  nodes d !! slot_path name = Some File ->
  Nat.iter n (fun d' => fst (runDeploy name d')) d = d
  /\ runDeploy name d = (d, [LogMkdirError "not a directory"])
  /\ is_pending d name = false.
Proof.
  intros Hm Hfile.
  assert (Hrun : runDeploy name d = (d, [LogMkdirError "not a directory"])).
  { rewrite (runDeploy_matched_name name d Hm).
    pose proof (slot_path_not_nil name) as Hn.
    destruct (rev (slot_path name)) as [|x rq] eqn:Hrev.
    { apply (f_equal (@rev string)) in Hrev.
      rewrite rev_involutive in Hrev. contradiction. }
    cbn [os.MkdirAll_rev]. rewrite <- Hrev, rev_involutive.
    rewrite Stat_not_nil by exact Hn. now rewrite Hfile. }
  split; [|split; [exact Hrun|]].
  - induction n as [|n IH]; [reflexivity|]. simpl. rewrite IH.
    now rewrite Hrun.
  - destruct (is_pending d name) eqn:Hp; [|reflexivity].
    apply is_pending_true in Hp. congruence.
Qed.

(** X12. Whatever string it is given, [runDeploy] only adds directories:
    an entry that is on the disk stays what it is, an entry that appears
    is a directory that was absent, and the storage flag is untouched. *)
Theorem runDeploy_only_adds_directories (repository : string) (d : disk) :
  writable (fst (runDeploy repository d)) = writable d
  /\ (forall (q : list string) (n : node),
        nodes d !! q = Some n ->
        nodes (fst (runDeploy repository d)) !! q = Some n)
  /\ (forall q : list string,
        nodes d !! q = None ->
        nodes (fst (runDeploy repository d)) !! q = None
        \/ nodes (fst (runDeploy repository d)) !! q = Some Dir).
Proof.
  unfold runDeploy, os.MkdirAll.
  set (rp := rev (os.walk (filepath.Join [webhookDir; repository]))).
  destruct (os.MkdirAll_rev d rp) as [d' e] eqn:Hmk.
  destruct (MkdirAll_rev_spec rp d d' e Hmk) as (Hw & Hfr & _).
  assert (Hfst : fst (match e with
                      | Some err => (d', [LogMkdirError err])
                      | None => (d', [LogDeployTriggered repository])
                      end) = d') by now destruct e.
  rewrite Hfst. split; [exact Hw|]. split.
  - intros q n Hq.
    destruct (decide (nodes d' !! q = nodes d !! q)) as [Heq|Hne];
      [congruence|].
    apply Hfr in Hne as (Hnone & _). congruence.
  - intros q Hq.
    destruct (decide (nodes d' !! q = nodes d !! q)) as [Heq|Hne].
    + left. congruence.
    + right. now apply Hfr in Hne as (_ & Hdir & _).
Qed.

(** X13. While the storage refuses writes [runDeploy] leaves the disk as
    it is, whatever string it is given; it still prints success when the
    directory is already there. *)
Theorem runDeploy_on_unavailable_storage (repository : string) (d : disk) :
  writable d = false ->
  fst (runDeploy repository d) = d
  /\ (snd (runDeploy repository d) = [LogDeployTriggered repository]
      <-> os.Stat d (os.walk (filepath.Join [webhookDir; repository]))
          = Some Dir).
Proof.
  intros Hw. unfold runDeploy, os.MkdirAll.
  set (p := os.walk (filepath.Join [webhookDir; repository])).
  pose proof (MkdirAll_rev_unwritable (rev p) d Hw) as Hd.
  destruct (os.MkdirAll_rev d (rev p)) as [d' e] eqn:Hmk.
  cbn [fst] in Hd. subst d'.
  destruct (MkdirAll_rev_spec (rev p) d d e Hmk) as (_ & _ & Hok).
  rewrite rev_involutive in Hok.
  destruct e as [e|]; cbn [fst snd].
  - split; [reflexivity|].
    split; [discriminate | intros H; apply Hok in H; discriminate].
  - split; [reflexivity|]. split; [intros _; now apply Hok | reflexivity].
Qed.

(** X14. Two goroutines for different matched names do not interfere: on
    a mailbox whose root is a directory they leave the same disk in either
    order, and each prints what it would have printed alone. *)
Theorem runDeploy_commutes (a b : string) (d : disk) :
  regexp.MatchString a = true ->
  regexp.MatchString b = true ->
  a <> b ->
  os.Stat d (os.walk webhookDir) = Some Dir ->
  fst (runDeploy a (fst (runDeploy b d))) = fst (runDeploy b (fst (runDeploy a d)))
  /\ snd (runDeploy a (fst (runDeploy b d))) = snd (runDeploy a d)
  /\ snd (runDeploy b (fst (runDeploy a d))) = snd (runDeploy b d).
Proof.
  intros Ha Hb Hab Hroot.
  assert (Hne : slot_path a <> slot_path b).
  { intros H. now apply slot_path_inj in H. }
  assert (Hroot_after : forall (x : string) (d0 : disk),
             regexp.MatchString x = true ->
             os.Stat d0 (os.walk webhookDir) = Some Dir ->
             os.Stat (fst (runDeploy x d0)) (os.walk webhookDir) = Some Dir).
  { intros x d0 Hx H0. rewrite (runDeploy_on_mailbox x d0 Hx H0).
    destruct (nodes d0 !! slot_path x) as [[|]|]; cbn [fst]; try exact H0.
    destruct (os.too_long x); cbn [fst]; [exact H0|].
    destruct (writable d0); cbn [fst]; [|exact H0].
    rewrite Stat_not_nil in H0 |- * by discriminate. cbn [nodes].
    rewrite lookup_insert_ne; [exact H0|].
    unfold slot_path. intros H. apply (f_equal (@length string)) in H.
    rewrite length_app in H. simpl in H. lia. }
  assert (Hother : forall (x y : string) (d0 : disk),
             regexp.MatchString x = true -> x <> y ->
             os.Stat d0 (os.walk webhookDir) = Some Dir ->
             nodes (fst (runDeploy x d0)) !! slot_path y
             = nodes d0 !! slot_path y
             /\ writable (fst (runDeploy x d0)) = writable d0).
  { intros x y d0 Hx Hxy H0. rewrite (runDeploy_on_mailbox x d0 Hx H0).
    assert (Hp : slot_path x <> slot_path y)
      by (intros H; now apply slot_path_inj in H).
    destruct (nodes d0 !! slot_path x) as [[|]|]; cbn [fst]; try now split.
    destruct (os.too_long x); cbn [fst]; [now split|].
    destruct (writable d0) eqn:Hw; cbn [fst nodes writable]; [|now split].
    split; [now rewrite lookup_insert_ne | reflexivity]. }
  destruct (Hother b a d Hb (not_eq_sym Hab) Hroot) as [Hba Hwb].
  destruct (Hother a b d Ha Hab Hroot) as [Hab' Hwa].
  rewrite (runDeploy_on_mailbox a _ Ha (Hroot_after b d Hb Hroot)).
  rewrite (runDeploy_on_mailbox b _ Hb (Hroot_after a d Ha Hroot)).
  rewrite Hba, Hab', Hwa, Hwb.
  rewrite (runDeploy_on_mailbox a d Ha Hroot).
  rewrite (runDeploy_on_mailbox b d Hb Hroot).
  destruct (nodes d !! slot_path a) as [[|]|] eqn:Hsa;
    destruct (nodes d !! slot_path b) as [[|]|] eqn:Hsb;
    destruct (os.too_long a); destruct (os.too_long b);
    destruct (writable d) eqn:Hw;
    cbn [fst snd nodes writable]; rewrite ?Hw; cbn [fst snd nodes writable];
    repeat split; try reflexivity.
  f_equal. apply insert_insert_ne. exact Hne.
Qed.

(** ** Where [runDeploy] writes for an arbitrary string *)

Lemma elements_pieces (s : string) :
  Forall (fun e => filepath.elements e = [e]) (filepath.elements s).
Proof.
  induction s as [|c s IH]; simpl.
  - now constructor.
  - destruct (Ascii.eqb c filepath.Separator) eqn:Hc.
    + now constructor.
    + pose proof (elements_not_nil s) as Hn.
      destruct (filepath.elements s) as [|e es]; [contradiction|].
      inversion IH as [|? ? He Hes]; subst.
      constructor; [|exact Hes].
      simpl. now rewrite Hc, He.
Qed.

Lemma elements_concat (l : list string) :
  l <> [] ->
  Forall (fun e => filepath.elements e = [e]) l ->
  filepath.elements (String.concat "/" l) = l.
Proof.
  induction l as [|x l IH]; [congruence|]. intros _ Hall.
  inversion Hall as [|? ? Hx Hl]; subst.
  destruct l as [|y l]; [exact Hx|].
  change (String.concat "/" (x :: y :: l))
    with (x +:+ String filepath.Separator (String.concat "/" (y :: l))).
  rewrite elements_append_separator, Hx, IH by (congruence || assumption).
  reflexivity.
Qed.

Lemma fold_clean_step_without_dotdot (els : list string) :
  forall out : list string,
    forallb (fun e => negb (is_dotdot e)) els = true ->
    fold_left (filepath.clean_step true) els out
    = rev (List.filter real_element els) ++ out.
Proof.
  induction els as [|e els IH]; intros out Hno; [reflexivity|].
  cbn [forallb] in Hno. apply andb_prop in Hno as [He Hels].
  unfold is_dotdot in He. apply negb_true_iff in He.
  cbn [fold_left List.filter]. rewrite (IH _ Hels).
  unfold filepath.clean_step, real_element. rewrite He.
  destruct (String.eqb e EmptyString); [reflexivity|].
  destruct (String.eqb e "."); [reflexivity|].
  cbn [negb andb rev]. now rewrite <- app_assoc.
Qed.

Lemma Forall_list_filter {A : Type} (P : A -> Prop) (f : A -> bool) (l : list A) :
  Forall P l -> Forall P (List.filter f l).
Proof.
  induction 1 as [|x l Hx Hl IH]; cbn [List.filter]; [constructor|].
  destruct (f x); [constructor; assumption | exact IH].
Qed.

Lemma filter_real_is_not_empty (l : list string) :
  filter (fun e => e <> EmptyString) (List.filter real_element l)
  = List.filter real_element l.
Proof.
  induction l as [|e l IH]; [reflexivity|].
  cbn [List.filter]. destruct (real_element e) eqn:He; [|exact IH].
  rewrite filter_cons_True, IH; [reflexivity|].
  intros ->. discriminate He.
Qed.

(** X15. The pattern is not the only guard of the mailbox: whatever
    string [runDeploy] is given, as long as none of its path elements is
    [..] the directory it makes is the mailbox root followed by the real
    elements of the string, so it lies inside the root or is the root
    itself. *)
Theorem runDeploy_leaves_the_root_only_through_dotdot (repository : string) :
  forallb (fun e => negb (is_dotdot e)) (filepath.elements repository) = true ->
  os.walk (filepath.Join [webhookDir; repository])
  = os.walk webhookDir
    ++ List.filter real_element (filepath.elements repository).
Proof.
  intros Hno.
  set (rest := List.filter real_element (filepath.elements repository)).
  assert (Hrest : Forall (fun e => filepath.elements e = [e]) rest).
  { unfold rest. apply Forall_list_filter, elements_pieces. }
  change (filepath.Join [webhookDir; repository])
    with ("/" +:+ String.concat "/"
            (rev (fold_left (filepath.clean_step true)
                    (filepath.elements
                       (webhookDir +:+ String filepath.Separator repository))
                    []))).
  rewrite elements_append_separator, fold_left_app.
  change (fold_left (filepath.clean_step true) (filepath.elements webhookDir) [])
    with ["webhook_jobs"; "app"].
  rewrite (fold_clean_step_without_dotdot _ _ Hno). fold rest.
  rewrite rev_app_distr, rev_involutive.
  change (rev ["webhook_jobs"; "app"]) with ["app"; "webhook_jobs"].
  unfold os.walk.
  change ("/" +:+ String.concat "/" (["app"; "webhook_jobs"] ++ rest))
    with (EmptyString +:+ String filepath.Separator
            (String.concat "/" ("app" :: "webhook_jobs" :: rest))).
  rewrite elements_append_separator.
  rewrite elements_concat
    by (try discriminate; repeat constructor; exact Hrest).
  change (filepath.elements EmptyString) with [EmptyString].
  change (filepath.elements webhookDir) with [EmptyString; "app"; "webhook_jobs"].
  cbn [app].
  rewrite !filter_cons_False by (intros Hf; now apply Hf).
  rewrite !filter_cons_True by discriminate.
  rewrite filter_cons_False by (intros Hf; now apply Hf).
  rewrite !filter_cons_True by discriminate.
  rewrite filter_nil. cbn [app]. unfold rest.
  now rewrite filter_real_is_not_empty.
Qed.

(** X16. Different matched names have different slots: [filepath.Join]
    sends them to different directories. *)
Theorem matched_names_have_distinct_slots (a b : string) :
  regexp.MatchString a = true ->
  regexp.MatchString b = true ->
  a <> b ->
  filepath.Join [webhookDir; a] <> filepath.Join [webhookDir; b]
  /\ os.walk (filepath.Join [webhookDir; a])
     <> os.walk (filepath.Join [webhookDir; b]).
Proof.
  intros Ha Hb Hab.
  assert (Hw : os.walk (filepath.Join [webhookDir; a])
               <> os.walk (filepath.Join [webhookDir; b])).
  { rewrite !walk_Join_matched_name by assumption.
    intros H. now apply slot_path_inj in H. }
  split; [|exact Hw]. intros H. apply Hw. now rewrite H.
Qed.

(** ** [init] and the trimmed secret *)

Lemma TrimRight_keeps_a_kept_head (c : ascii) (rest cs : string) :
  strings.in_cutset cs c = false ->
  exists r : string, strings.TrimRight (String c rest) cs = String c r.
Proof.
  intros Hc. cbn [strings.TrimRight].
  destruct (strings.TrimRight rest cs) as [|b t]; [rewrite Hc|]; eauto.
Qed.

Lemma TrimLeft_head (s cs : string) (c : ascii) (r : string) :
  strings.TrimLeft s cs = String c r -> strings.in_cutset cs c = false.
Proof.
  induction s as [|a s IH]; simpl; [discriminate|].
  destruct (strings.in_cutset cs a) eqn:Ha; [exact IH|].
  now intros [= <- _].
Qed.

Lemma TrimRight_last (cs : string) (s : string) :
  forall (r : string) (c : ascii),
    strings.TrimRight s cs = r +:+ String c EmptyString ->
    strings.in_cutset cs c = false.
Proof.
  induction s as [|a s IH]; intros r c; cbn [strings.TrimRight].
  - destruct r; discriminate.
  - destruct (strings.TrimRight s cs) as [|b t] eqn:Ht.
    + destruct (strings.in_cutset cs a) eqn:Ha; [destruct r; discriminate|].
      destruct r as [|x r]; cbn [String.append].
      * now intros [= <-].
      * intros [= _ H]. destruct r; discriminate.
    + destruct r as [|x r]; cbn [String.append]; [discriminate|].
      intros [= _ H]. now apply (IH r c).
Qed.

Lemma TrimLeft_all (s cs : string) :
  strings.TrimLeft s cs = EmptyString
  <-> forallb (strings.in_cutset cs) (list_ascii_of_string s) = true.
Proof.
  induction s as [|a s IH]; simpl; [tauto|].
  destruct (strings.in_cutset cs a); simpl; [exact IH|].
  split; discriminate.
Qed.

Lemma TrimRight_all (s cs : string) :
  strings.TrimRight s cs = EmptyString
  <-> forallb (strings.in_cutset cs) (list_ascii_of_string s) = true.
Proof.
  induction s as [|a s IH]; cbn [strings.TrimRight list_ascii_of_string forallb];
    [tauto|].
  destruct (strings.TrimRight s cs) as [|b t].
  - destruct (strings.in_cutset cs a); cbn [andb].
    + split; [intros _; now apply IH | reflexivity].
    + split; discriminate.
  - split; [discriminate|]. intros H. apply andb_prop in H as [_ H].
    apply IH in H. discriminate.
Qed.

Lemma Trim_empty_iff (s cs : string) :
  strings.Trim s cs = EmptyString
  <-> forallb (strings.in_cutset cs) (list_ascii_of_string s) = true.
Proof.
  unfold strings.Trim. rewrite TrimRight_all. split.
  - intros H. apply TrimLeft_all.
    destruct (strings.TrimLeft s cs) as [|a t] eqn:Hl; [reflexivity|].
    pose proof (TrimLeft_head s cs a t Hl) as Ha.
    cbn [list_ascii_of_string forallb] in H. now rewrite Ha in H.
  - intros H. apply TrimLeft_all in H. now rewrite H.
Qed.

(** X17. [strings.Trim] as [init] uses it: the result neither starts nor
    ends with a character of the cut set, it is empty exactly when the
    value holds nothing else, and trimming it again changes nothing. *)
Theorem Trim_has_clean_ends (s cs : string) :
  (forall (c : ascii) (r : string),
      strings.Trim s cs = String c r -> strings.in_cutset cs c = false)
  /\ (forall (r : string) (c : ascii),
        strings.Trim s cs = r +:+ String c EmptyString ->
        strings.in_cutset cs c = false)
  /\ (strings.Trim s cs = EmptyString
      <-> forallb (strings.in_cutset cs) (list_ascii_of_string s) = true)
  /\ strings.Trim (strings.Trim s cs) cs = strings.Trim s cs.
Proof.
  assert (Hhead : forall (c : ascii) (r : string),
             strings.Trim s cs = String c r -> strings.in_cutset cs c = false).
  { unfold strings.Trim. intros c r H.
    destruct (strings.TrimLeft s cs) as [|a t] eqn:Hl; [discriminate|].
    pose proof (TrimLeft_head s cs a t Hl) as Ha.
    destruct (TrimRight_keeps_a_kept_head a t cs Ha) as [r' Hr].
    rewrite Hr in H. now injection H as <- _. }
  assert (Hlast : forall (r : string) (c : ascii),
             strings.Trim s cs = r +:+ String c EmptyString ->
             strings.in_cutset cs c = false).
  { unfold strings.Trim. intros r c. apply TrimRight_last. }
  split; [exact Hhead|]. split; [exact Hlast|]. split.
  - apply Trim_empty_iff.
  - set (t := strings.Trim s cs) in *.
    assert (Hl : strings.TrimLeft t cs = t).
    { destruct t as [|c r] eqn:Ht; [reflexivity|].
      cbn [strings.TrimLeft]. now rewrite (Hhead c r eq_refl). }
    unfold strings.Trim at 1. rewrite Hl.
    clear Hl Hhead. revert Hlast. generalize t. clear.
    induction t as [|a t IH]; intros Hlast; [reflexivity|].
    cbn [strings.TrimRight].
    destruct t as [|b t].
    + cbn [strings.TrimRight].
      now rewrite (Hlast EmptyString a eq_refl).
    + rewrite IH; [reflexivity|].
      intros r c H. apply (Hlast (String a r) c).
      cbn [String.append]. now rewrite H.
Qed.

(** X18. [init] panics exactly when the environment value holds nothing
    but quotes and white space (the unset variable included) or the
    mailbox root cannot be made; otherwise the secret is the trimmed value,
    it is not empty, the root is a directory, and what was on the disk is
    still there. *)
Theorem init_panics_or_establishes (getenv : string) (d : disk) :
  (init getenv d = None
   <-> forallb (strings.in_cutset cutset) (list_ascii_of_string getenv) = true
       \/ snd (os.MkdirAll d webhookDir) <> None)
  /\ forall (secret : string) (d' : disk),
      init getenv d = Some (secret, d') ->
      secret = strings.Trim getenv cutset
      /\ secret <> EmptyString
      /\ os.Stat d' (os.walk webhookDir) = Some Dir
      /\ forall (q : list string) (n : node),
          nodes d !! q = Some n -> nodes d' !! q = Some n.
Proof.
  pose proof (Trim_empty_iff getenv cutset) as Hempty.
  unfold init, os.MkdirAll.
  destruct (String.eqb_spec (strings.Trim getenv cutset) EmptyString)
    as [Ht|Ht].
  - split; [|discriminate]. split; [intros _; left; now apply Hempty|].
    reflexivity.
  - destruct (os.MkdirAll_rev d (rev (os.walk webhookDir))) as [d1 e] eqn:Hmk.
    destruct (MkdirAll_rev_spec _ d d1 e Hmk) as (_ & Hfr & Hok).
    rewrite rev_involutive in Hok.
    destruct e as [e|]; cbn [snd].
    + split; [|discriminate].
      split; [intros _; right; discriminate | reflexivity].
    + split.
      * split; [discriminate|].
        intros [H|H]; [apply Hempty in H | ]; contradiction.
      * intros secret d' [= <- <-].
        repeat split; [exact Ht | now apply Hok |].
        intros q n Hq.
        destruct (decide (nodes d1 !! q = nodes d !! q)) as [Heq|Hne];
          [congruence|].
        apply Hfr in Hne as (Hnone & _). congruence.
Qed.

(** ** The server, step by step *)

Lemma started_at_most_one
  (secret : string) (dec : bytes -> GitHubWebhookPayload * error)
  (c : gin.Context) :
  started (githubWebhookHandler secret dec c) = []
  \/ exists name : string,
      regexp.MatchString name = true
      /\ started (githubWebhookHandler secret dec c) = [GoRunDeploy name].
Proof.
  unfold githubWebhookHandler, gin.ReadAll.
  destruct (gin.BodyErr c); [now left|].
  destruct (verifySignature _ _ _); [now left|].
  destruct (negb (String.eqb (gin.GetHeader c "X-GitHub-Event") "push"));
    [now left|].
  destruct (dec (gin.Body c)) as [payload [e|]]; [now left|].
  destruct (negb (String.eqb (Ref payload) "refs/heads/main")); [now left|].
  destruct (regexp.MatchString (Name (Repository payload))) eqn:Hm;
    [right | now left].
  now exists (Name (Repository payload)).
Qed.

(** What one step keeps. *)
Lemma step_keeps
  (secret : string) (dec : bytes -> GitHubWebhookPayload * error)
  (s s' : server) :
  step secret dec s s' ->
  Forall matched (goroutines s) ->
  os.Stat (fs s) (os.walk webhookDir) = Some Dir ->
  Forall matched (goroutines s')
  /\ os.Stat (fs s') (os.walk webhookDir) = Some Dir
  /\ writable (fs s') = writable (fs s)
  /\ forall q : list string,
      nodes (fs s') !! q = nodes (fs s) !! q
      \/ exists name : string,
          regexp.MatchString name = true /\ q = slot_path name
          /\ nodes (fs s) !! q = None /\ nodes (fs s') !! q = Some Dir.
Proof.
  intros Hstep Hgs Hroot. destruct Hstep as [s c|s before after g Hsplit].
  - cbn [fs goroutines]. repeat split; try assumption; [|now left].
    apply Forall_app. split; [exact Hgs|].
    destruct (started_at_most_one secret dec c) as [->|(name & Hm & ->)];
      [constructor | repeat constructor; exact Hm].
  - rewrite Hsplit in Hgs. apply Forall_app in Hgs as [Hb Hga].
    apply Forall_cons in Hga as [Hg Ha].
    destruct g as [name]. cbn [matched] in Hg. cbn [run].
    rewrite (runDeploy_on_mailbox name (fs s) Hg Hroot).
    assert (Hrest : Forall matched (before ++ after))
      by (apply Forall_app; now split).
    destruct (nodes (fs s) !! slot_path name) as [[|]|] eqn:Hslot;
      cbn [fs goroutines]; try (repeat split; try assumption; now left).
    destruct (os.too_long name); cbn [fs goroutines];
      [repeat split; try assumption; now left|].
    destruct (writable (fs s)) eqn:Hw; cbn [fs goroutines];
      [|repeat split; try assumption; now left].
    split; [exact Hrest|]. split; [|split; [reflexivity|]].
    + rewrite Stat_not_nil in Hroot |- * by discriminate. cbn [nodes].
      rewrite lookup_insert_ne; [exact Hroot|].
      unfold slot_path. intros H. apply (f_equal (@length string)) in H.
      rewrite length_app in H. simpl in H. lia.
    + intros q. cbn [nodes].
      destruct (decide (q = slot_path name)) as [->|Hq].
      * right. exists name. rewrite lookup_insert_eq. now repeat split.
      * left. now rewrite lookup_insert_ne by congruence.
Qed.

(** X19. Along any run of the server, whatever requests arrive and
    whenever the goroutines run: if the mailbox root is a directory at the
    start, it stays one, and the only change the disk ever sees is a slot
    directory of a matched name appearing where nothing was.  No entry is
    removed or replaced, so a pending slot stays pending. *)
Theorem server_only_adds_slots
  (secret : string) (dec : bytes -> GitHubWebhookPayload * error)
  (s s' : server) :
  rtc (step secret dec) s s' ->
  Forall matched (goroutines s) ->
  os.Stat (fs s) (os.walk webhookDir) = Some Dir ->
  Forall matched (goroutines s')
  /\ os.Stat (fs s') (os.walk webhookDir) = Some Dir
  /\ writable (fs s') = writable (fs s)
  /\ (forall q : list string,
        nodes (fs s') !! q = nodes (fs s) !! q
        \/ exists name : string,
            regexp.MatchString name = true /\ q = slot_path name
            /\ nodes (fs s) !! q = None /\ nodes (fs s') !! q = Some Dir)
  /\ forall name : string,
      is_pending (fs s) name = true -> is_pending (fs s') name = true.
Proof.
  intros Hrun.
  enough (Hmain :
    Forall matched (goroutines s) ->
    os.Stat (fs s) (os.walk webhookDir) = Some Dir ->
    Forall matched (goroutines s')
    /\ os.Stat (fs s') (os.walk webhookDir) = Some Dir
    /\ writable (fs s') = writable (fs s)
    /\ (forall q : list string,
          nodes (fs s') !! q = nodes (fs s) !! q
          \/ exists name : string,
              regexp.MatchString name = true /\ q = slot_path name
              /\ nodes (fs s) !! q = None /\ nodes (fs s') !! q = Some Dir)).
  { intros Hgs Hroot. destruct (Hmain Hgs Hroot) as (H1 & H2 & H3 & H4).
    repeat split; try assumption.
    intros name Hp. apply is_pending_true in Hp. apply is_pending_true.
    destruct (H4 (slot_path name)) as [Heq|(n & _ & _ & Hnone & _)];
      congruence. }
  induction Hrun as [s|s s1 s' Hstep Hrun IH]; intros Hgs Hroot.
  - repeat split; try assumption. now left.
  - destruct (step_keeps secret dec s s1 Hstep Hgs Hroot)
      as (Hgs1 & Hroot1 & Hw1 & Hfr1).
    destruct (IH Hgs1 Hroot1) as (Hgs' & Hroot' & Hw' & Hfr').
    split; [exact Hgs'|]. split; [exact Hroot'|].
    split; [congruence|]. intros q.
    destruct (Hfr1 q) as [H1|(n1 & Hm1 & Hq1 & Hn1 & Hd1)];
      destruct (Hfr' q) as [H2|(n2 & Hm2 & Hq2 & Hn2 & Hd2)].
    + left. congruence.
    + right. exists n2. repeat split; congruence.
    + right. exists n1. repeat split; congruence.
    + congruence.
Qed.

(** [serve] is one run of the server: the step of the request, followed
    at once by the goroutine it started, if any. *)
Lemma serve_is_a_run_of_the_server
  (secret : string) (dec : bytes -> GitHubWebhookPayload * error)
  (d : disk) (c : gin.Context) (out : list logline) (rs : list gin.Response) :
  rtc (step secret dec)
      (Server d [] out rs)
      (Server (snd (fst (serve secret dec d c))) []
              (out ++ snd (serve secret dec d c))
              (rs ++ [fst (fst (serve secret dec d c))])).
Proof.
  pose proof (step_request secret dec (Server d [] out rs) c) as H1.
  cbn [fs goroutines stdout responses app] in H1.
  unfold serve.
  destruct (started_at_most_one secret dec c) as [Hs|(name & _ & Hs)];
    rewrite Hs in *.
  - rewrite run_all_nil. cbn [fst snd]. rewrite app_nil_r.
    now apply rtc_once.
  - rewrite run_all_one. cbn [run].
    eapply rtc_l; [exact H1|]. apply rtc_once.
    pose proof (step_goroutine secret dec
                  (Server d [GoRunDeploy name]
                     (out ++ printed (githubWebhookHandler secret dec c))
                     (rs ++ [response (githubWebhookHandler secret dec c)]))
                  [] [] (GoRunDeploy name) eq_refl) as H2.
    cbn [fs goroutines stdout responses app run] in H2.
    destruct (runDeploy name d) as [d' out']. cbn [fst snd].
    now rewrite app_assoc.
Qed.

(** ** The further properties at sample inputs *)

Lemma other_event_is_ignored_witness :
  gin.GetHeader ping_garbage "X-GitHub-Event" <> "push"
  /\ forall dec : bytes -> GitHubWebhookPayload * error,
      githubWebhookHandler "s3cr3t" dec ping_garbage
      = Outcome (gin.JSON http.StatusOK
                   {[ "ok" := gin.Bool true; "ignored" := gin.Str "not a push" ]})
                [LogIgnoredEvent "ping"] [].
Proof.
  split; [vm_compute; discriminate|].
  apply (other_event_is_ignored_unparsed "s3cr3t" ping_garbage);
    vm_compute; (reflexivity || discriminate).
Defined.

Lemma unreadable_body_witness :
  gin.BodyErr unreadable_request = Some "unexpected EOF"
  /\ forall d : disk,
      serve "s3cr3t" json.Unmarshal d unreadable_request
      = (gin.JSON http.StatusBadRequest
           {[ "error" := gin.Str "failed to read body" ]},
         d, [LogReadFailed "unexpected EOF"]).
Proof.
  split; [reflexivity|].
  apply (unreadable_body_is_bad_request "s3cr3t" json.Unmarshal
           unreadable_request "unexpected EOF").
  reflexivity.
Defined.

Lemma accepted_signature_witness :
  verifySignature "s3cr3t" (gin.Body push_main_svc1)
    (gin.GetHeader push_main_svc1 "X-Hub-Signature-256") = None
  /\ String.length (gin.GetHeader push_main_svc1 "X-Hub-Signature-256")
     = 71%nat.
Proof.
  assert (H : verifySignature "s3cr3t" (gin.Body push_main_svc1)
                (gin.GetHeader push_main_svc1 "X-Hub-Signature-256") = None)
    by (vm_compute; reflexivity).
  split; [exact H|].
  exact (proj1 (accepted_signature_is_71_characters _ _ _ H)).
Defined.

Lemma mutated_signature_witness :
  (7 < String.length ("sha256=" +:+ expectedMAC "s3cr3t" []))%nat
  /\ verifySignature "s3cr3t" []
       (flip_string 7 0 ("sha256=" +:+ expectedMAC "s3cr3t" [])) <> None.
Proof.
  assert (H : (7 < String.length ("sha256=" +:+ expectedMAC "s3cr3t" []))%nat).
  { rewrite length_append, length_expectedMAC. simpl. lia. }
  split; [exact H|].
  exact (mutated_signature_is_rejected "s3cr3t" [] 7 0 H).
Defined.

Lemma healthy_mailbox_witness :
  regexp.MatchString "svc1" = true
  /\ (String.length "svc1" <= os.NAME_MAX)%nat
  /\ writable mailbox = true
  /\ snd (runDeploy "svc1" mailbox) = [LogDeployTriggered "svc1"]
  /\ is_pending (fst (runDeploy "svc1" mailbox)) "svc1" = true.
Proof.
  assert (Hlen : (String.length "svc1" <= os.NAME_MAX)%nat)
    by (vm_compute; lia).
  split; [reflexivity|]. split; [exact Hlen|]. split; [reflexivity|].
  destruct (runDeploy_succeeds_on_a_healthy_mailbox "svc1" mailbox)
    as (H1 & H2 & _); try reflexivity;
    [exact Hlen | vm_compute; discriminate |].
  now split.
Defined.

Lemma blocked_slot_witness :
  nodes mailbox_blocked !! slot_path "svc1" = Some File
  /\ Nat.iter 3 (fun d' => fst (runDeploy "svc1" d')) mailbox_blocked
     = mailbox_blocked
  /\ runDeploy "svc1" mailbox_blocked
     = (mailbox_blocked, [LogMkdirError "not a directory"]).
Proof.
  assert (H : nodes mailbox_blocked !! slot_path "svc1" = Some File)
    by (vm_compute; reflexivity).
  split; [exact H|].
  destruct (runDeploy_is_blocked_by_a_file "svc1" mailbox_blocked 3 eq_refl H)
    as (H1 & H2 & _).
  now split.
Defined.

Lemma unavailable_storage_witness :
  writable mailbox_unavailable = false
  /\ fst (runDeploy "../outside" mailbox_unavailable) = mailbox_unavailable.
Proof.
  split; [reflexivity|].
  exact (proj1 (runDeploy_on_unavailable_storage "../outside"
                  mailbox_unavailable eq_refl)).
Defined.

Lemma runDeploy_commutes_witness :
  "svc1" <> "svc2"
  /\ fst (runDeploy "svc1" (fst (runDeploy "svc2" mailbox)))
     = fst (runDeploy "svc2" (fst (runDeploy "svc1" mailbox))).
Proof.
  assert (H : "svc1" <> "svc2") by discriminate.
  split; [exact H|].
  exact (proj1 (runDeploy_commutes "svc1" "svc2" mailbox
                  eq_refl eq_refl H eq_refl)).
Defined.

Lemma without_dotdot_witness :
  forallb (fun e => negb (is_dotdot e)) (filepath.elements "a//b/./c") = true
  /\ os.walk (filepath.Join [webhookDir; "a//b/./c"])
     = ["app"; "webhook_jobs"; "a"; "b"; "c"].
Proof.
  split; [reflexivity|].
  rewrite (runDeploy_leaves_the_root_only_through_dotdot "a//b/./c" eq_refl).
  reflexivity.
Defined.

Lemma distinct_slots_witness :
  "svc1" <> "svc2"
  /\ filepath.Join [webhookDir; "svc1"] <> filepath.Join [webhookDir; "svc2"].
Proof.
  assert (H : "svc1" <> "svc2") by discriminate.
  split; [exact H|].
  exact (proj1 (matched_names_have_distinct_slots "svc1" "svc2"
                  eq_refl eq_refl H)).
Defined.

Lemma server_only_adds_slots_witness :
  exists s' : server,
    rtc (step "s3cr3t" json.Unmarshal) (Server mailbox [] [] []) s'
    /\ goroutines s' = []
    /\ is_pending (fs s') "svc1" = true
    /\ os.Stat (fs s') (os.walk webhookDir) = Some Dir
    /\ writable (fs s') = writable mailbox.
Proof.
  pose proof (step_request "s3cr3t" json.Unmarshal
                (Server mailbox [] [] []) push_main_svc1) as H1.
  match type of H1 with step _ _ _ ?x => set (s1 := x) in H1 end.
  assert (Hs : goroutines s1 = [] ++ GoRunDeploy "svc1" :: [])
    by (vm_compute; reflexivity).
  pose proof (step_goroutine "s3cr3t" json.Unmarshal s1 [] []
                (GoRunDeploy "svc1") Hs) as H2.
  match type of H2 with step _ _ _ ?x => set (s2 := x) in H2 end.
  assert (Hrun : rtc (step "s3cr3t" json.Unmarshal) (Server mailbox [] [] []) s2)
    by (eapply rtc_l; [exact H1 | now apply rtc_once]).
  exists s2. split; [exact Hrun|].
  split; [vm_compute; reflexivity|].
  split; [vm_compute; reflexivity|].
  destruct (server_only_adds_slots _ _ _ _ Hrun (Forall_nil_2 matched) eq_refl)
    as (_ & Hroot & Hw & _).
  split; [exact Hroot | exact Hw].
Defined.

(** ** A burst of pushes *)

Lemma list_pending_insert (d d' : disk) (name : string) :
  nodes d' = <[slot_path name := Dir]> (nodes d) ->
  list_pending d' = {[ name ]} ∪ list_pending d.
Proof.
  intros Hn. apply set_eq. intros x.
  rewrite elem_of_union, elem_of_singleton, !elem_of_list_pending, Hn.
  destruct (decide (x = name)) as [->|Hx].
  - rewrite lookup_insert_eq. tauto.
  - rewrite lookup_insert_ne
      by (intros H; apply slot_path_inj in H; congruence).
    tauto.
Qed.

(** X20. A burst of pushes collapses onto one slot: on a healthy mailbox,
    serving the same accepted push, for a name of at most [NAME_MAX]
    bytes, once or any number of times more leaves the same disk, the one
    it was plus the slot directory of the name, and every one of these
    requests is answered [queued: true]. *)
Theorem burst_of_pushes_makes_one_slot
  (secret : string) (dec : bytes -> GitHubWebhookPayload * error)
  (c : gin.Context) (payload : GitHubWebhookPayload) (d : disk) (n : nat) :
  gin.BodyErr c = None ->
  verifySignature secret (gin.Body c) (gin.GetHeader c "X-Hub-Signature-256")
  = None ->
  gin.GetHeader c "X-GitHub-Event" = "push" ->
  dec (gin.Body c) = (payload, None) ->
  Ref payload = "refs/heads/main" ->
  regexp.MatchString (Name (Repository payload)) = true ->
  (String.length (Name (Repository payload)) <= os.NAME_MAX)%nat ->
  os.Stat d (os.walk webhookDir) = Some Dir ->
  writable d = true ->
  nodes d !! slot_path (Name (Repository payload)) <> Some File ->
  let name := Name (Repository payload) in
  let after := Nat.iter (S n) (fun d' => snd (fst (serve secret dec d' c))) d in
  nodes after = <[slot_path name := Dir]> (nodes d)
  /\ writable after = true
  /\ list_pending after = {[ name ]} ∪ list_pending d
  /\ fst (fst (serve secret dec after c))
     = gin.JSON http.StatusOK
         {[ "ok" := gin.Bool true; "queued" := gin.Bool true ]}.
Proof.
  intros Hbody Hsig Hev Hdec Href Hm Hlen Hroot Hw Hfile name after.
  pose proof (handler_accepts secret dec c payload
                Hbody Hsig Hev Hdec Href Hm) as Ho. fold name in Ho.
  pose proof (short_name_is_not_too_long name Hlen) as Hshort.
  assert (Hserve : forall d0 : disk,
             snd (fst (serve secret dec d0 c)) = fst (runDeploy name d0)).
  { intros d0. unfold serve. rewrite Ho. cbn [started].
    rewrite run_all_one. cbn [run]. now destruct (runDeploy name d0). }
  assert (Hinv : nodes after = <[slot_path name := Dir]> (nodes d)
                 /\ writable after = true).
  { unfold after. clear after. induction n as [|n IH].
    - change (Nat.iter 1 (fun d' => snd (fst (serve secret dec d' c))) d)
        with (snd (fst (serve secret dec d c))).
      rewrite Hserve.
      rewrite (runDeploy_on_mailbox name d Hm Hroot), Hshort.
      destruct (nodes d !! slot_path name) as [[|]|] eqn:Hslot;
        [| contradiction |]; cbn [fst].
      + split; [symmetry; now apply insert_id | exact Hw].
      + rewrite Hw. cbn [fst nodes writable]. now split.
    - destruct IH as [IHn IHw].
      set (dn := Nat.iter (S n) (fun d' => snd (fst (serve secret dec d' c))) d)
        in *.
      change (Nat.iter (S (S n))
                (fun d' => snd (fst (serve secret dec d' c))) d)
        with (snd (fst (serve secret dec dn c))).
      rewrite Hserve.
      assert (Hrootn : os.Stat dn (os.walk webhookDir) = Some Dir).
      { rewrite Stat_not_nil in Hroot |- * by discriminate. rewrite IHn.
        rewrite lookup_insert_ne; [exact Hroot|].
        unfold slot_path. intros H. apply (f_equal (@length string)) in H.
        rewrite length_app in H. simpl in H. lia. }
      rewrite (runDeploy_on_mailbox name dn Hm Hrootn).
      rewrite IHn, lookup_insert_eq. cbn [fst]. now split. }
  destruct Hinv as [Hn Hwn].
  split; [exact Hn|]. split; [exact Hwn|].
  split; [now apply list_pending_insert|].
  unfold serve. rewrite Ho. cbn [started response].
  now destruct (run_all [GoRunDeploy name] after).
Qed.

Lemma burst_of_pushes_witness :
  writable mailbox = true
  /\ regexp.MatchString "svc1" = true
  /\ list_pending
       (Nat.iter 3
          (fun d' => snd (fst (serve "s3cr3t" json.Unmarshal d' push_main_svc1)))
          mailbox)
     = {[ "svc1" ]} ∪ list_pending mailbox.
Proof.
  split; [reflexivity|]. split; [reflexivity|].
  refine (proj1 (proj2 (proj2
    (burst_of_pushes_makes_one_slot "s3cr3t" json.Unmarshal push_main_svc1
       {| Ref := "refs/heads/main"; Repository := {| Name := "svc1" |} |}
       mailbox 2 _ _ _ _ _ _ _ _ _ _))));
    vm_compute; (reflexivity || discriminate || lia).
Defined.

(** ** Marking a slot pending twice *)

(** C3 as stated fails: marking twice may leave no pending slot at all.
    A name of 256 letters is matched by the pattern, and on a healthy
    mailbox both calls fail with [file name too long]; on a mailbox whose
    storage refuses writes, or where a regular file sits at the slot path,
    both calls for [svc1] fail as well.  In each case the second call ends
    as the first did. *)
Lemma marking_twice_may_leave_no_slot :
  regexp.MatchString long_name = true
  /\ runDeploy long_name mailbox
     = (mailbox, [LogMkdirError "file name too long"])
  /\ runDeploy long_name (fst (runDeploy long_name mailbox))
     = (mailbox, [LogMkdirError "file name too long"])
  /\ is_pending mailbox long_name = false
  /\ list_pending mailbox = ∅
  /\ regexp.MatchString "svc1" = true
  /\ runDeploy "svc1" mailbox_unavailable
     = (mailbox_unavailable, [LogMkdirError "read-only file system"])
  /\ runDeploy "svc1" (fst (runDeploy "svc1" mailbox_unavailable))
     = (mailbox_unavailable, [LogMkdirError "read-only file system"])
  /\ is_pending mailbox_unavailable "svc1" = false
  /\ list_pending mailbox_unavailable = ∅
  /\ runDeploy "svc1" (fst (runDeploy "svc1" mailbox_blocked))
     = (mailbox_blocked, [LogMkdirError "not a directory"])
  /\ is_pending mailbox_blocked "svc1" = false
  /\ list_pending mailbox_blocked = ∅.
Proof. vm_compute. repeat split; reflexivity. Qed.

(** C3, as amended. On a mailbox whose root is a directory and whose
    storage accepts the write (writable, no regular file at the slot path,
    a name of at most [NAME_MAX] bytes), marking a matched identity
    pending twice yields exactly one pending slot: the first [runDeploy]
    succeeds and leaves the disk as it was plus the slot directory, the
    second changes nothing and succeeds the same way, and the pending
    slots are then those there were before and the one slot of the
    identity.  On every disk the second call leaves the disk as the first
    did and prints the same line. *)
Theorem mark_pending_twice_makes_one_slot (identity : string) (d : disk) :
  regexp.MatchString identity = true ->
  (String.length identity <= os.NAME_MAX)%nat ->
  os.Stat d (os.walk webhookDir) = Some Dir ->
  writable d = true ->
  nodes d !! slot_path identity <> Some File ->
  let d1 := fst (runDeploy identity d) in
  let d2 := fst (runDeploy identity d1) in
  runDeploy identity d = (d1, [LogDeployTriggered identity])
  /\ nodes d1 = <[slot_path identity := Dir]> (nodes d)
  /\ runDeploy identity d1 = (d1, [LogDeployTriggered identity])
  /\ is_pending d2 identity = true
  /\ list_pending d2 = {[ identity ]} ∪ list_pending d
  /\ (identity ∉ list_pending d ->
      size (list_pending d2) = S (size (list_pending d)))
  /\ forall d0 : disk,
      runDeploy identity (fst (runDeploy identity d0))
      = (fst (runDeploy identity d0), snd (runDeploy identity d0)).
Proof.
  intros Hm Hlen Hroot Hw Hfile d1 d2.
  pose proof (short_name_is_not_too_long identity Hlen) as Hshort.
  assert (Hfirst : runDeploy identity d = (d1, [LogDeployTriggered identity])
                   /\ nodes d1 = <[slot_path identity := Dir]> (nodes d)).
  { unfold d1. rewrite (runDeploy_on_mailbox identity d Hm Hroot), Hshort.
    destruct (nodes d !! slot_path identity) as [[|]|] eqn:Hslot;
      [| contradiction |]; cbn [fst].
    - split; [reflexivity | symmetry; now apply insert_id].
    - rewrite Hw. cbn [fst nodes]. now split. }
  destruct Hfirst as [Hrun1 Hn1].
  assert (Hrun2 : runDeploy identity d1 = (d1, [LogDeployTriggered identity])).
  { pose proof (runDeploy_twice identity d) as Ht.
    rewrite Hrun1 in Ht. exact Ht. }
  assert (Hd2 : d2 = d1) by (unfold d2; now rewrite Hrun2).
  assert (Hset : list_pending d2 = {[ identity ]} ∪ list_pending d).
  { rewrite Hd2. now apply list_pending_insert. }
  split; [exact Hrun1|]. split; [exact Hn1|]. split; [exact Hrun2|].
  split; [|split; [exact Hset|split]].
  - rewrite Hd2. apply is_pending_true. rewrite Hn1. apply lookup_insert_eq.
  - intros Hnew. rewrite Hset, size_union, size_singleton by set_solver.
    reflexivity.
  - intros d0. apply runDeploy_twice.
Qed.

Lemma mark_pending_twice_witness :
  regexp.MatchString "svc1" = true
  /\ (String.length "svc1" <= os.NAME_MAX)%nat
  /\ os.Stat mailbox (os.walk webhookDir) = Some Dir
  /\ writable mailbox = true
  /\ nodes mailbox !! slot_path "svc1" <> Some File
  /\ is_pending (fst (runDeploy "svc1" (fst (runDeploy "svc1" mailbox)))) "svc1"
     = true
  /\ list_pending (fst (runDeploy "svc1" (fst (runDeploy "svc1" mailbox))))
     = {[ "svc1" ]} ∪ list_pending mailbox
  /\ size (list_pending (fst (runDeploy "svc1" (fst (runDeploy "svc1" mailbox)))))
     = 1%nat.
Proof.
  assert (Hlen : (String.length "svc1" <= os.NAME_MAX)%nat)
    by (vm_compute; lia).
  assert (Hfile : nodes mailbox !! slot_path "svc1" <> Some File)
    by (vm_compute; discriminate).
  assert (Hnew : "svc1" ∉ list_pending mailbox).
  { rewrite elem_of_list_pending. vm_compute. discriminate. }
  destruct (mark_pending_twice_makes_one_slot "svc1" mailbox
              eq_refl Hlen eq_refl eq_refl Hfile)
    as (_ & _ & _ & Hp & Hset & Hsize & _).
  split; [reflexivity|]. split; [exact Hlen|]. split; [reflexivity|].
  split; [reflexivity|]. split; [exact Hfile|]. split; [exact Hp|].
  split; [exact Hset|].
  rewrite (Hsize Hnew). vm_compute. reflexivity.
Defined.
